(** * LEGIC RF reader (armsrc/legicrf.c): shallow embedding and properties

    The reader-side code of [armsrc/legicrf.c] is embedded as functions over
    an explicit [world]: the file's static variables ([input_threshold],
    [legic_mem], [card]), the state of the keystream generator, the read
    position in the byte stream delivered by the FPGA, and the chronological
    log of every call the code makes to the hardware, the debug channel and
    the host.

    Machine integers are [Z] with the conversions written out ([uint8],
    [uint16], [uint32], [int8], [int32]). *)

From Stdlib Require Import String ZArith List Bool Lia Arith.
Import ListNotations.

Local Open Scope Z_scope.

(** ** Machine integers *)

Definition uint8 (x : Z) : Z := x mod 2 ^ 8.
Definition uint16 (x : Z) : Z := x mod 2 ^ 16.
Definition uint32 (x : Z) : Z := x mod 2 ^ 32.

Definition int8 (x : Z) : Z :=
  let u := uint8 x in if u <? 2 ^ 7 then u else u - 2 ^ 8.

Definition int32 (x : Z) : Z :=
  let u := uint32 x in if u <? 2 ^ 31 then u else u - 2 ^ 32.

(** ** Macros and constants *)

(** Modelled from the spec: the macros [ABS], [MAX] and [MIN] come from a
    header that is not among the sources; the amplitude is specified as
    [max(|i|,|q|) + min(|i|,|q|)/2], which fixes their usual meaning. *)
Definition ABS (a : Z) : Z := if a <? 0 then - a else a.
Definition MAX (a b : Z) : Z := if a >? b then a else b.
Definition MIN (a b : Z) : Z := if a <? b then a else b.

(** Modelled from the spec: the macro [BYTEx] (byte [n] of a word) comes from
    a header that is not among the sources; the response frame is specified
    as 8 data bits followed by 4 CRC bits, data first. *)
Definition BYTEx (x n : Z) : Z := Z.land (Z.shiftr x (n * 8)) 255.

Definition RWD_TIME_PAUSE : Z := 20.
Definition RWD_TIME_1 : Z := 100.
Definition RWD_TIME_0 : Z := 60.
Definition TAG_FRAME_WAIT : Z := 330.
Definition TAG_BIT_PERIOD : Z := 100.
Definition LEGIC_CARD_MEMSIZE : Z := 1024.

(** ** The calls the code makes to its collaborators *)

Inductive fpga_mode : Type :=
| FPGA_MAJOR_MODE_HF_READER_TX
| FPGA_MAJOR_MODE_HF_READER_RX_XCORR_848_KHZ_QUARTER.

(** One constructor per external call.  [GetCountUS] stands for
    [ts = GetCountUS()]; [WaitUntil us] for the busy-wait
    [while(GetCountUS() < ts + us) { }] against the latest [ts];
    [SSC_DOUT false] and [SSC_DOUT true] for [LOW(GPIO_SSC_DOUT)] and
    [HIGH(GPIO_SSC_DOUT)].  [cmd_send] carries the [len] bytes its data
    pointer designates. *)
Inductive event : Type :=
| FpgaDownloadAndGo_HF
| FpgaWriteConfWord (mode : fpga_mode)
| SetAdcMuxFor_HIPKD
| FpgaSetupSsc
| PIO_claim_SSC_DOUT
| clear_trace
| set_tracing (on : bool)
| crc_init (order polynom initial final_xor : Z)
| StartCountUS
| GetCountUS
| SSC_DOUT (level : bool)
| WaitUntil (us : Z)
| Dbprintf (fmt : string) (args : list Z)
| cmd_send (cmd arg0 arg1 arg2 : Z) (data : list Z)
| switch_off.

(** ** Static state *)

(** Modelled from the spec: [legic_card_select_t] is declared in a header
    that is not among the sources; the spec lists its fields as tag type,
    command width, address width, memory size and a 4-byte UID. *)
Record legic_card_select_t : Type := mk_card {
  tagtype : Z;
  cmdsize : Z;
  addrsize : Z;
  cardsize : Z;
  uid : list Z
}.

(** Modelled from the spec: the keystream generator ([legic_prng_init],
    [legic_prng_forward], [legic_prng_get_bit]) is not among the sources.
    The spec gives it as a deterministic bit sequence, seeded per session,
    with a position that [forward(n)] advances by [n] and a [current_bit()]
    that peeks at that position.  The sequence itself is a parameter of the
    development (see [keystream] below). *)
Record legic_prng : Type := mk_prng {
  prng_seed : Z;
  prng_pos : nat
}.

Record world : Type := mk_world {
  input_threshold : Z;
  lfsr : legic_prng;
  ssc_pos : nat;
  legic_mem : list Z;
  card : legic_card_select_t;
  trace : list event
}.

Definition set_input_threshold (t : Z) (w : world) : world :=
  mk_world t (lfsr w) (ssc_pos w) (legic_mem w) (card w) (trace w).

Definition set_lfsr (p : legic_prng) (w : world) : world :=
  mk_world (input_threshold w) p (ssc_pos w) (legic_mem w) (card w) (trace w).

Definition set_ssc_pos (n : nat) (w : world) : world :=
  mk_world (input_threshold w) (lfsr w) n (legic_mem w) (card w) (trace w).

Definition set_legic_mem (m : list Z) (w : world) : world :=
  mk_world (input_threshold w) (lfsr w) (ssc_pos w) m (card w) (trace w).

Definition set_card (c : legic_card_select_t) (w : world) : world :=
  mk_world (input_threshold w) (lfsr w) (ssc_pos w) (legic_mem w) c (trace w).

Definition emit (e : event) (w : world) : world :=
  mk_world (input_threshold w) (lfsr w) (ssc_pos w) (legic_mem w) (card w)
           (trace w ++ [e]).

(** [legic_mem[i] = v].  [legic_mem] points into a larger buffer, of which
    [init_reader] clears the first [LEGIC_CARD_MEMSIZE] bytes: the list holds
    those bytes and what was stored above them since.  A store just past the
    end of the list adds a cell; the loops store at consecutive indices from
    0, so no cell is ever skipped (a skipped cell would hold 0). *)
Fixpoint store_at (i : nat) (v : Z) (m : list Z) : list Z :=
  match i, m with
  | O, [] => [v]
  | O, _ :: m' => v :: m'
  | S i', [] => 0 :: store_at i' v []
  | S i', x :: m' => x :: store_at i' v m'
  end.

Definition store (i v : Z) (w : world) : world :=
  if i <? 0 then w else set_legic_mem (store_at (Z.to_nat i) v (legic_mem w)) w.

(** ** Card Type Registry: [init_card] *)

Definition set_geometry (cmd addr size : Z) (c : legic_card_select_t)
  : legic_card_select_t :=
  mk_card (tagtype c) cmd addr size (uid c).

Definition init_card (cardtype : Z) (p_card : legic_card_select_t)
  : Z * legic_card_select_t :=
  let p := mk_card cardtype (cmdsize p_card) (addrsize p_card)
                   (cardsize p_card) (uid p_card) in
  if tagtype p =? 0x0d then (0, set_geometry 6 5 22 p)
  else if tagtype p =? 0x1d then (0, set_geometry 9 8 256 p)
  else if tagtype p =? 0x3d then (0, set_geometry 11 10 1024 p)
  else (2, set_geometry 0 0 0 p).

(** ** Observations on a trace *)

Definition is_Dbprintf (e : event) : bool :=
  match e with Dbprintf _ _ => true | _ => false end.

Definition is_cmd_send (e : event) : bool :=
  match e with cmd_send _ _ _ _ _ => true | _ => false end.

Definition crc_mismatch_fmt : string := "!!! crc mismatch: %x != %x !!!".
Definition rx_bit_failed_fmt : string :=
  "rx_bit failed %i vs %i (threshold %i)".

Definition is_crc_mismatch (e : event) : bool :=
  match e with
  | Dbprintf fmt _ => String.eqb fmt crc_mismatch_fmt
  | _ => false
  end.

(** What the host sees of an operation: the [cmd_send] calls. *)
Definition host_view (tr : list event) : list event := filter is_cmd_send tr.

(** The calls other than debug prints. *)
Definition non_debug (tr : list event) : list event :=
  filter (fun e => negb (is_Dbprintf e)) tr.

(** The calls that neither reach the host nor report a CRC mismatch. *)
Definition quiet (e : event) : bool :=
  negb (is_cmd_send e) && negb (is_crc_mismatch e).

(** The calls of [init_reader]. *)
Definition init_reader_calls : list event :=
  [FpgaDownloadAndGo_HF;
   FpgaWriteConfWord FPGA_MAJOR_MODE_HF_READER_RX_XCORR_848_KHZ_QUARTER;
   SetAdcMuxFor_HIPKD; FpgaSetupSsc; PIO_claim_SSC_DOUT; SSC_DOUT true;
   clear_trace; set_tracing true; crc_init 4 12 5 0; StartCountUS].

(** The events of one transmitted bit, and of a whole frame of given wire
    bits: configuration word, one pulse per bit, closing pause. *)
Definition pulse (b : bool) : list event :=
  [GetCountUS; SSC_DOUT false; WaitUntil RWD_TIME_PAUSE; SSC_DOUT true;
   WaitUntil (if b then RWD_TIME_1 else RWD_TIME_0)].

Definition frame_end : list event :=
  [GetCountUS; SSC_DOUT false; WaitUntil RWD_TIME_PAUSE; SSC_DOUT true].

Definition frame_on_wire (bits : list bool) : list event :=
  FpgaWriteConfWord FPGA_MAJOR_MODE_HF_READER_TX
    :: flat_map pulse bits ++ frame_end.

(** The bits a trace put on the wire: a bit period of [RWD_TIME_1] is a one,
    of [RWD_TIME_0] a zero. *)
Definition wire_bit (e : event) : list bool :=
  match e with
  | WaitUntil us =>
      if us =? RWD_TIME_1 then [true]
      else if us =? RWD_TIME_0 then [false] else []
  | _ => []
  end.

Definition wire_bits (tr : list event) : list bool := flat_map wire_bit tr.

(** Bits [i], [i+1], ... of a frame value, in wire order. *)
Fixpoint frame_bits_from (frame i : Z) (n : nat) : list bool :=
  match n with
  | O => []
  | S n' => Z.testbit frame i :: frame_bits_from frame (i + 1) n'
  end.

Definition frame_bits (frame : Z) (len : nat) : list bool :=
  frame_bits_from frame 0 len.

(** The value of a list of bits, first bit least significant. *)
Fixpoint bits_value (l : list bool) : Z :=
  match l with
  | [] => 0
  | b :: l' => Z.b2z b + 2 * bits_value l'
  end.

Definition xor_bits (a b : list bool) : list bool :=
  map (fun p => xorb (fst p) (snd p)) (combine a b).

(** ** Sample inputs

    A front-end stream that opens with [ncal] silent power samples and then
    presents one bit per bit period (ten bytes, five I/Q pairs): a strong
    carrier for a one, silence for a zero. *)
Definition stream_of_bits (ncal : nat) (bits : list bool) : nat -> Z :=
  fun n =>
    if (n <? 2 * ncal)%nat then 0
    else if nth ((n - 2 * ncal) / 10)%nat bits false then 100 else 0.

Definition zero_keystream : Z -> nat -> bool := fun _ _ => false.

Definition toggling_keystream : Z -> nat -> bool :=
  fun seed pos => Z.odd seed || Nat.even pos.

Definition zero_crc : Z -> Z -> Z := fun _ _ => 0.

(** A receiver whose threshold was calibrated to 16 on silence. *)
Definition tuned_world : world :=
  mk_world 16 (mk_prng 0 0) 0 [] (mk_card 0 0 0 0 [0; 0; 0; 0]) [].

Definition blank_card : legic_card_select_t := mk_card 0 0 0 0 [0; 0; 0; 0].

(** The six type bits of the 22-byte and of the 1024-byte card, and a
    twelve-bit response: data byte, then CRC nibble. *)
Definition mim22_type : list bool := frame_bits 0x0d 6.
Definition mim1024_type : list bool := frame_bits 0x3d 6.

Definition response (data crc : Z) : list bool :=
  frame_bits data 8 ++ frame_bits crc 4.

(** A 22-byte card whose first answer carries a wrong CRC (the CRC
    collaborator [zero_crc] expects the nibble 0). *)
Definition first_read_fails_stream : nat -> Z :=
  stream_of_bits 1 (mim22_type ++ response 0x00 1).

(** A 22-byte card whose first answer is good and whose second carries a
    wrong CRC. *)
Definition second_read_fails_stream : nat -> Z :=
  stream_of_bits 1 (mim22_type ++ response 0xA5 0 ++ response 0x5A 1).

(** A 1024-byte card that answers four reads. *)
Definition four_reads_stream : nat -> Z :=
  stream_of_bits 1
    (mim1024_type ++ response 0xA5 0 ++ response 0x5A 0
     ++ response 0xFF 0 ++ response 0x01 0).

(** Three power samples, 5, 150 and 20, then silence. *)
Definition charge_up_stream : nat -> Z :=
  fun n => nth n [3; 4; 100; 100; 0; 20] 0.

(** A bit period whose 3rd sample is strong and whose 4th is silent. *)
Definition fading_stream : nat -> Z :=
  fun n => if (n <? 6)%nat then 100 else 0.

(** The wire bits of the value 11 sent as a 4-bit frame under
    [toggling_keystream] from seed 0, position 0. *)
Definition loopback_stream : nat -> Z :=
  stream_of_bits 0 [false; true; true; true].

(** A card record left behind by an earlier identification. *)
Definition stale_card : legic_card_select_t :=
  mk_card 0x3d 11 10 1024 [0x12; 0x34; 0x56; 0x78].

Definition boot_world : world :=
  mk_world 0 (mk_prng 0 0) 0 [] blank_card [].

(** A world whose threshold is 150, the power of a strong carrier in the
    sample streams. *)
Definition edge_world : world :=
  mk_world 150 (mk_prng 0 0) 0 [] blank_card [].

(** A world whose threshold no power sample can exceed. *)
Definition blind_world : world :=
  mk_world 200 (mk_prng 0 0) 0 [] blank_card [].

(** A front-end that delivers silence. *)
Definition silent_stream : nat -> Z := fun _ => 0.

(** A stand-in for the UID checksum: the sum of the bytes, as a byte. *)
Definition sum_crc8 : list Z -> Z := fun u => fold_right Z.add 0 u mod 256.

(** A stand-in for the memory image of the card record, in the order in
    which the spec lists its fields. *)
Definition flat_card_image : legic_card_select_t -> list Z :=
  fun c =>
    [tagtype c; cmdsize c; addrsize c; cardsize c mod 256; cardsize c / 256]
      ++ uid c.

(** A 22-byte card with UID 1 2 3 4 and the matching checksum [sum_crc8]
    at address 4. *)
Definition identify_stream : nat -> Z :=
  stream_of_bits 1
    (mim22_type ++ response 1 0 ++ response 2 0 ++ response 3 0
     ++ response 4 0 ++ response 10 0).

(** * The reader code *)

Section Reader.

(** The byte sequence the SSC receive holding register delivers, in order of
    arrival. *)
Variable ssc_rhr : nat -> Z.

(** The keystream: the bit at each position, for each seed. *)
Variable keystream : Z -> nat -> bool.

(** The CRC collaborator as configured by [init_reader]: [crc_clear], one
    [crc_update] of the given data and width, [crc_finish]. *)
Variable crc4 : Z -> Z -> Z.

(** The number of further turns of the calibration loop that the 5 ms
    charge-up window leaves room for after the first one (the loop is a
    do-while against the microsecond timer). *)
Variable charge_samples : nat.

(** Constants of headers that are not among the sources. *)
Variable LEGIC_READ : Z.
Variable CMD_ACK : Z.

(** *** Keystream generator *)

Definition legic_prng_init (iv : Z) : legic_prng := mk_prng (uint8 iv) 0.

Definition legic_prng_forward (count : nat) (p : legic_prng) : legic_prng :=
  mk_prng (prng_seed p) (prng_pos p + count).

Definition legic_prng_get_bit (p : legic_prng) : bool :=
  keystream (prng_seed p) (prng_pos p).

(** *** I/O interface abstraction (FPGA -> ARM) *)

Definition rx_byte_from_fpga (w : world) : Z * world :=
  (uint8 (ssc_rhr (ssc_pos w)), set_ssc_pos (S (ssc_pos w)) w).

(** *** Demodulation *)

Definition sample_power (w : world) : Z * world :=
  let '(b, w) := rx_byte_from_fpga w in
  let q := ABS (int8 b) in
  let '(b, w) := rx_byte_from_fpga w in
  let i := ABS (int8 b) in
  (MAX i q + Z.shiftr (MIN i q) 1, w).

(** The loop filling the array [p]. *)
Fixpoint acquire (n : nat) (w : world) : list Z * world :=
  match n with
  | O => ([], w)
  | S n' =>
      let '(s, w) := sample_power w in
      let '(p, w) := acquire n' w in
      (s :: p, w)
  end.

Definition rx_bit (w : world) : bool * world :=
  let '(p, w) := acquire 5 w in
  let p2 := nth 2 p 0 in
  let p3 := nth 3 p 0 in
  if (p2 >? input_threshold w) && (p3 >? input_threshold w) then (true, w)
  else if (p2 <? input_threshold w) && (p3 <? input_threshold w) then (false, w)
  else (false, emit (Dbprintf rx_bit_failed_fmt [p2; p3; input_threshold w]) w).

(** *** Modulation *)

Definition tx_bit (bit : bool) (w : world) : world :=
  let w := emit GetCountUS w in
  let w := emit (SSC_DOUT false) w in
  let w := emit (WaitUntil RWD_TIME_PAUSE) w in
  let w := emit (SSC_DOUT true) w in
  if bit then emit (WaitUntil RWD_TIME_1) w
  else emit (WaitUntil RWD_TIME_0) w.

(** *** Frame handling *)

(** [n] turns of the transmit loop, the counter standing at [i].  The frame
    is a [uint32_t]; the frames of the protocol have at most 32 bits, so the
    shift count stays below the width of the word. *)
Fixpoint tx_frame_loop (n : nat) (i frame : Z) (w : world) : world :=
  match n with
  | O => w
  | S n' =>
      let bit := negb (Z.land (Z.shiftr frame i) 1 =? 0) in
      let w := tx_bit (xorb bit (legic_prng_get_bit (lfsr w))) w in
      let w := set_lfsr (legic_prng_forward 1 (lfsr w)) w in
      tx_frame_loop n' (i + 1) frame w
  end.

Definition tx_frame (frame len : Z) (w : world) : world :=
  let w := emit (FpgaWriteConfWord FPGA_MAJOR_MODE_HF_READER_TX) w in
  let w := tx_frame_loop (Z.to_nat len) 0 frame w in
  let w := emit GetCountUS w in
  let w := emit (SSC_DOUT false) w in
  let w := emit (WaitUntil RWD_TIME_PAUSE) w in
  emit (SSC_DOUT true) w.

(** [n] turns of the receive loop, the counter standing at [i].  The bit is
    an [int] shifted left and or-ed into the [uint32_t] frame. *)
Fixpoint rx_frame_loop (n : nat) (i frame : Z) (w : world) : Z * world :=
  match n with
  | O => (frame, w)
  | S n' =>
      let '(b, w) := rx_bit w in
      let bit := Z.b2z (xorb b (legic_prng_get_bit (lfsr w))) in
      let frame := uint32 (Z.lor frame (Z.shiftl bit i)) in
      let w := set_lfsr (legic_prng_forward 1 (lfsr w)) w in
      rx_frame_loop n' (i + 1) frame w
  end.

Definition rx_frame (len : Z) (w : world) : Z * world :=
  let w :=
    emit (FpgaWriteConfWord FPGA_MAJOR_MODE_HF_READER_RX_XCORR_848_KHZ_QUARTER)
         w in
  rx_frame_loop (Z.to_nat len) 0 0 w.

(** *** Legic reader *)

(** [BigBuf_get_EM_addr] is taken to return the buffer, so the image is
    cleared. *)
Definition init_reader (clear_mem : bool) (w : world) : world :=
  let w := emit FpgaDownloadAndGo_HF w in
  let w :=
    emit (FpgaWriteConfWord FPGA_MAJOR_MODE_HF_READER_RX_XCORR_848_KHZ_QUARTER)
         w in
  let w := emit SetAdcMuxFor_HIPKD w in
  let w := emit FpgaSetupSsc w in
  let w := emit PIO_claim_SSC_DOUT w in
  let w := emit (SSC_DOUT true) w in
  let w := set_legic_mem (repeat 0 (Z.to_nat LEGIC_CARD_MEMSIZE)) w in
  let w := emit clear_trace w in
  let w := emit (set_tracing true) w in
  let w := emit (crc_init 4 (Z.shiftr 0x19 1) 0x05 0) w in
  emit StartCountUS w.

(** [n] turns of the body of the calibration do-while. *)
Fixpoint calibrate (n : nat) (w : world) : world :=
  match n with
  | O => w
  | S n' =>
      let '(sample, w) := sample_power w in
      let w :=
        if sample >? input_threshold w then set_input_threshold sample w
        else w in
      calibrate n' w
  end.

Definition setup_phase_reader (iv : Z) (w : world) : Z * world :=
  let w := emit GetCountUS w in
  let w := set_input_threshold 8 w in
  let w := calibrate (S charge_samples) w in
  let w := set_input_threshold (int32 (Z.shiftl (input_threshold w) 1)) w in
  let w := set_lfsr (legic_prng_init 0) w in
  let w := tx_frame iv 7 w in
  let w := emit GetCountUS w in
  let w := set_lfsr (legic_prng_init iv) w in
  let w := set_lfsr (legic_prng_forward 2 (lfsr w)) w in
  let w := emit (WaitUntil TAG_FRAME_WAIT) w in
  let '(frame, w) := rx_frame 6 w in
  let card_type := int32 frame in
  let w :=
    if card_type =? 0x0D then tx_frame 0x19 6 w
    else if (card_type =? 0x1D) || (card_type =? 0x3D) then tx_frame 0x39 6 w
    else w in
  (uint32 card_type, w).

Definition calc_crc4 (cmd cmd_sz value : Z) : Z :=
  uint8 (crc4 (uint32 (Z.lor (Z.shiftl value cmd_sz) cmd)) (8 + cmd_sz)).

Definition read_byte (index cmd_sz : Z) (w : world) : Z * world :=
  let cmd := uint16 (Z.lor (Z.shiftl index 1) LEGIC_READ) in
  let w := tx_frame cmd cmd_sz w in
  let '(frame, w) := rx_frame 12 w in
  let byte := uint8 (BYTEx frame 0) in
  let crc := uint8 (BYTEx frame 1) in
  let calc_crc := calc_crc4 cmd cmd_sz byte in
  if negb (calc_crc =? crc)
  then (-1, emit (Dbprintf crc_mismatch_fmt [calc_crc; crc]) w)
  else (byte, w).

(** *** Command line interface: bulk read *)

(** The guard "do not read beyond card memory": the sum is an [int], the
    difference is converted back to [uint16_t]. *)
Definition clamp_len (offset len size : Z) : Z :=
  if len + offset >? size then uint16 (size - offset) else len.

(** [n] turns of the read loop, the counter standing at [i].  The flag tells
    whether the loop ran to its end; on a failed byte the failure is sent to
    the host and the loop is left ([goto OUT]). *)
Fixpoint read_loop (n : nat) (i offset cmd_sz : Z) (w : world)
  : bool * world :=
  match n with
  | O => (true, w)
  | S n' =>
      let '(byte, w) := read_byte (uint16 (offset + i)) cmd_sz w in
      if byte =? -1 then (false, emit (cmd_send CMD_ACK 0 0 0 []) w)
      else read_loop n' (i + 1) offset cmd_sz (store i (uint8 byte) w)
  end.

Definition LegicRfReader (offset len iv : Z) (w : world) : world :=
  let w := init_reader false w in
  let '(t, w) := setup_phase_reader iv w in
  let card_type := uint8 t in
  let '(rc, c) := init_card card_type (card w) in
  let w := set_card c w in
  if negb (rc =? 0) then emit switch_off (emit (cmd_send CMD_ACK 0 0 0 []) w)
  else
    let len := clamp_len offset len (cardsize (card w)) in
    let '(ok, w) := read_loop (Z.to_nat len) 0 offset (cmdsize (card w)) w in
    if ok
    then
      emit switch_off
        (emit (cmd_send CMD_ACK 1 len 0 (firstn (Z.to_nat len) (legic_mem w)))
              w)
    else emit switch_off w.

(** *** Pure readings of the front-end stream, used to state properties *)

(** The power sample computed from the two bytes at positions [n], [n+1]. *)
Definition power_at (n : nat) : Z :=
  let q := ABS (int8 (uint8 (ssc_rhr n))) in
  let i := ABS (int8 (uint8 (ssc_rhr (S n)))) in
  MAX i q + Z.shiftr (MIN i q) 1.

(** The two decision samples of the bit period starting at position [n]:
    the 3rd and the 4th of the five samples. *)
Definition decision_pair (n : nat) : Z * Z :=
  (power_at (4 + n), power_at (6 + n)).

Definition both_above (th : Z) (n : nat) : bool :=
  (fst (decision_pair n) >? th) && (snd (decision_pair n) >? th).

Definition both_below (th : Z) (n : nat) : bool :=
  (fst (decision_pair n) <? th) && (snd (decision_pair n) <? th).

(** The debug prints of [n] received bits starting at position [pos]. *)
Fixpoint rx_logs (th : Z) (pos n : nat) : list event :=
  match n with
  | O => []
  | S n' =>
      (if both_above th pos || both_below th pos then []
       else [Dbprintf rx_bit_failed_fmt
               [fst (decision_pair pos); snd (decision_pair pos); th]])
        ++ rx_logs th (10 + pos) n'
  end.

(** The bits demodulated from [n] bit periods starting at position [pos]. *)
Fixpoint demod_bits (th : Z) (pos n : nat) : list bool :=
  match n with
  | O => []
  | S n' => both_above th pos :: demod_bits th (10 + pos) n'
  end.

(** The front-end presents the given bits from position [pos] on: both
    decision samples above the threshold for a one, both below for a
    zero. *)
Fixpoint presents (th : Z) (pos : nat) (bits : list bool) : bool :=
  match bits with
  | [] => true
  | b :: bits' =>
      (if b then both_above th pos else both_below th pos)
        && presents th (10 + pos) bits'
  end.

(** The next [n] keystream bits. *)
Fixpoint keystream_bits (p : legic_prng) (n : nat) : list bool :=
  match n with
  | O => []
  | S n' => legic_prng_get_bit p :: keystream_bits (legic_prng_forward 1 p) n'
  end.

(** The frame value accumulated by the receive loop from decoded bits. *)
Fixpoint accumulate (bits : list bool) (i frame : Z) : Z :=
  match bits with
  | [] => frame
  | b :: bits' =>
      accumulate bits' (i + 1) (uint32 (Z.lor frame (Z.shiftl (Z.b2z b) i)))
  end.

(** The power samples seen by [n] turns of the calibration loop. *)
Fixpoint observed (pos n : nat) : list Z :=
  match n with
  | O => []
  | S n' => power_at pos :: observed (2 + pos) n'
  end.

(** The threshold the calibration arrives at when it starts reading the
    stream at position [pos], and the card type then decoded from the six
    bit periods that follow the calibration samples, for a given IV. *)
Definition calibrated_threshold (pos : nat) : Z :=
  int32 (Z.shiftl (fold_left Z.max (observed pos (S charge_samples)) 8) 1).

Definition type_bits (iv : Z) (pos : nat) : list bool :=
  xor_bits
    (demod_bits (calibrated_threshold pos) (2 * S charge_samples + pos) 6)
    (keystream_bits (legic_prng_forward 2 (legic_prng_init iv)) 6).

(** The acknowledgment frame as it appears on the wire: sent with the
    keystream 8 positions after the IV seed. *)
Definition ack_on_wire (iv ack : Z) : list event :=
  frame_on_wire
    (xor_bits (frame_bits ack 6)
              (keystream_bits (legic_prng_forward 8 (legic_prng_init iv)) 6)).

(** The twelve response bits [read_byte] decodes in world [w] after a
    command of [width] bits, the data byte and CRC nibble they carry (eight
    data bits first, then four CRC bits), and the CRC computed for that
    byte and command. *)
Definition response_bits (width : nat) (w : world) : list bool :=
  xor_bits (demod_bits (input_threshold w) (ssc_pos w) 12)
           (keystream_bits (legic_prng_forward width (lfsr w)) 12).

Definition response_data (width : nat) (w : world) : Z :=
  bits_value (firstn 8 (response_bits width w)).

Definition response_crc (width : nat) (w : world) : Z :=
  bits_value (skipn 8 (response_bits width w)).

(** The events a call appended to the trace. *)
Definition appended (w w' : world) : list event :=
  skipn (length (trace w)) (trace w').

(** The world after a frame exchange: the keystream [k] positions further,
    the stream [m] bytes further, [evs] appended to the trace; the threshold,
    the memory image and the card record as they were. *)
Definition after (k m : nat) (evs : list event) (w : world) : world :=
  mk_world (input_threshold w) (legic_prng_forward k (lfsr w))
           (m + ssc_pos w) (legic_mem w) (card w) (trace w ++ evs).

(** The data byte answered to the [k]-th of a run of reads with commands of
    [width] bits that starts in world [w]: each read moves the keystream
    [width + 12] positions and the stream 120 bytes further. *)
Definition nth_read_data (width : nat) (w : world) (k : nat) : Z :=
  response_data width (after (k * (width + 12)) (120 * k) [] w).

(** The world in which the first read of a session takes place when the
    card was recognized: the threshold calibrated, the keystream 14
    positions after the IV seed (type and acknowledgment exchanged), the
    stream past the calibration samples and the six type bits. *)
Definition session_start (iv : Z) (w : world) : world :=
  mk_world (calibrated_threshold (ssc_pos w))
           (legic_prng_forward 14 (legic_prng_init iv))
           (60 + (2 * S charge_samples + ssc_pos w))
           (repeat 0 (Z.to_nat LEGIC_CARD_MEMSIZE)) (card w) (trace w).

(** The bytes a bulk read of [n] bytes receives. *)
Definition bulk_data (iv : Z) (w : world) (width n : nat) : list Z :=
  map (nth_read_data width (session_start iv w)) (seq 0 n).

(** The calls of [setup_phase_reader] when it starts reading the stream at
    position [pos]. *)
Definition setup_calls (iv : Z) (pos : nat) : list event :=
  let card_type := bits_value (type_bits iv pos) in
  [GetCountUS]
  ++ frame_on_wire
       (xor_bits (frame_bits iv 7) (keystream_bits (legic_prng_init 0) 7))
  ++ [GetCountUS; WaitUntil TAG_FRAME_WAIT]
  ++ (FpgaWriteConfWord FPGA_MAJOR_MODE_HF_READER_RX_XCORR_848_KHZ_QUARTER
        :: rx_logs (calibrated_threshold pos) (2 * S charge_samples + pos) 6)
  ++ (if card_type =? 0x0D then ack_on_wire iv 0x19
      else if (card_type =? 0x1D) || (card_type =? 0x3D)
           then ack_on_wire iv 0x39
           else []).

(** The world of an operation once [init_reader], [setup_phase_reader] and
    [init_card] have run. *)
Definition after_setup (iv : Z) (w : world) : world :=
  let card_type := bits_value (type_bits iv (ssc_pos w)) in
  let known :=
    (card_type =? 0x0D) || (card_type =? 0x1D) || (card_type =? 0x3D) in
  mk_world (calibrated_threshold (ssc_pos w))
           (legic_prng_forward (if known then 14 else 8) (legic_prng_init iv))
           (60 + (2 * S charge_samples + ssc_pos w))
           (repeat 0 (Z.to_nat LEGIC_CARD_MEMSIZE))
           (snd (init_card card_type (card w)))
           (trace w ++ init_reader_calls ++ setup_calls iv (ssc_pos w)).

(** *** Command line interface: identification *)

Definition int16 (x : Z) : Z :=
  let u := uint16 x in if u <? 2 ^ 15 then u else u - 2 ^ 16.

(** The UID checksum of [crc.c], which is not among the sources:
    [CRC8Legic(buff, size)] over the [size] bytes given. *)
Variable CRC8Legic : list Z -> Z.

(** The [sizeof(legic_card_select_t)] bytes at [&card], as [cmd_send] copies
    them; the layout belongs to the absent header. *)
Variable card_image : legic_card_select_t -> list Z.

Definition set_uid (u : list Z) (c : legic_card_select_t)
  : legic_card_select_t :=
  mk_card (tagtype c) (cmdsize c) (addrsize c) (cardsize c) u.

(** [n] turns of the loop that reads the UID, the counter standing at [i]. *)
Fixpoint read_uid_loop (n : nat) (i : Z) (w : world) : bool * world :=
  match n with
  | O => (true, w)
  | S n' =>
      let '(byte, w) := read_byte i (cmdsize (card w)) w in
      if byte =? -1 then (false, emit (cmd_send CMD_ACK 0 0 0 []) w)
      else
        let c := card w in
        read_uid_loop n' (i + 1)
          (set_card
             (set_uid (store_at (Z.to_nat i) (Z.land byte 0xFF) (uid c)) c)
             w)
  end.

(** [sizeof(card.uid)] is 4: the UID has four bytes. *)
Definition LegicRfInfo (w : world) : world :=
  let w := init_reader false w in
  let '(t, w) := setup_phase_reader 0x01 w in
  let card_type := uint8 t in
  let '(rc, c) := init_card card_type (card w) in
  let w := set_card c w in
  if negb (rc =? 0) then emit switch_off (emit (cmd_send CMD_ACK 0 0 0 []) w)
  else
    let '(ok, w) := read_uid_loop 4 0 w in
    if ok
    then
      let '(mcc, w) := read_byte 4 (cmdsize (card w)) w in
      let calc_mcc := int16 (CRC8Legic (firstn 4 (uid (card w)))) in
      if negb (mcc =? calc_mcc)
      then emit switch_off (emit (cmd_send CMD_ACK 0 0 0 []) w)
      else
        emit switch_off
          (emit (cmd_send CMD_ACK 1 0 0 (card_image (card w))) w)
    else emit switch_off w.

(** The command word [read_byte] builds for an address. *)
Definition command_word (index : Z) : Z :=
  uint16 (Z.lor (Z.shiftl index 1) LEGIC_READ).

(** The bits that a run of reads at the given addresses puts on the wire,
    the keystream standing at [p] before the first: each command of [width]
    bits is xor-ed with the keystream, which then moves [width + 12]
    positions (the command and the twelve bits of the answer). *)
Fixpoint read_commands_on_wire (p : legic_prng) (width : nat)
  (addresses : list Z) : list bool :=
  match addresses with
  | [] => []
  | a :: rest =>
      xor_bits (frame_bits (command_word a) width) (keystream_bits p width)
        ++ read_commands_on_wire (legic_prng_forward (width + 12) p) width
             rest
  end.


(** * Properties *)

(** ** Bits and machine integers *)

Lemma low_bit_testbit (frame i : Z) :
  negb (Z.land (Z.shiftr frame i) 1 =? 0) = Z.testbit frame i.
Proof.
  change 1 with (Z.ones 1) at 1.
  rewrite Z.land_ones by lia.
  change (2 ^ 1) with 2.
  rewrite <- Z.bit0_mod, Z.shiftr_spec by lia.
  rewrite Z.add_0_l.
  now destruct (Z.testbit frame i).
Qed.

Lemma bits_value_range (l : list bool) :
  0 <= bits_value l < 2 ^ Z.of_nat (length l).
Proof.
  induction l as [|b l IH]; cbn [bits_value length].
  - simpl. lia.
  - rewrite Nat2Z.inj_succ, Z.pow_succ_r by lia.
    destruct b; cbn [Z.b2z]; lia.
Qed.

Lemma frame_bits_from_length (frame i : Z) (n : nat) :
  length (frame_bits_from frame i n) = n.
Proof.
  revert i; induction n as [|n IH]; intros i; simpl; [reflexivity|].
  now rewrite IH.
Qed.

Lemma bits_value_frame_bits_from (frame i : Z) (n : nat) :
  0 <= i ->
  bits_value (frame_bits_from frame i n) = Z.shiftr frame i mod 2 ^ Z.of_nat n.
Proof.
  revert i; induction n as [|n IH]; intros i Hi.
  - simpl. now rewrite Z.mod_1_r.
  - cbn [frame_bits_from bits_value].
    rewrite IH by lia.
    rewrite Nat2Z.inj_succ, Z.pow_succ_r by lia.
    rewrite Z.rem_mul_r by lia.
    rewrite <- Z.bit0_mod, Z.shiftr_spec, Z.add_0_l by lia.
    replace (Z.shiftr frame (i + 1)) with (Z.shiftr frame i / 2); [reflexivity|].
    rewrite <- Z.shiftr_shiftr by lia.
    now rewrite (Z.shiftr_div_pow2 _ 1) by lia.
Qed.

Lemma bits_value_frame_bits (frame : Z) (n : nat) :
  0 <= frame < 2 ^ Z.of_nat n ->
  bits_value (frame_bits frame n) = frame.
Proof.
  intros H. unfold frame_bits.
  rewrite bits_value_frame_bits_from by lia.
  rewrite Z.shiftr_0_r. now apply Z.mod_small.
Qed.

Lemma lor_shifted_bit (frame i : Z) (b : bool) :
  0 <= i -> 0 <= frame < 2 ^ i ->
  Z.lor frame (Z.shiftl (Z.b2z b) i) = frame + Z.b2z b * 2 ^ i.
Proof.
  intros Hi Hf.
  rewrite <- Z.shiftl_mul_pow2 by lia.
  rewrite <- Z.lxor_lor, <- Z.add_nocarry_lxor; try reflexivity.
  all: apply Z.bits_inj'; intros k Hk;
    rewrite Z.land_spec, Z.bits_0;
    destruct (Z.lt_ge_cases k i) as [Hlt|Hge].
  1,3: rewrite (Z.shiftl_spec_low _ _ _ Hlt); apply andb_false_r.
  all: replace (Z.testbit frame k) with false; [reflexivity|];
    symmetry; destruct (Z.eq_dec frame 0) as [->|Hnz];
    [apply Z.bits_0|];
    apply Z.bits_above_log2; [lia|];
    apply Z.log2_lt_pow2; [lia|];
    apply Z.lt_le_trans with (2 ^ i); [lia|];
    apply Z.pow_le_mono_r; lia.
Qed.

Lemma accumulate_value (bits : list bool) (i frame : Z) :
  0 <= i -> i + Z.of_nat (length bits) <= 32 -> 0 <= frame < 2 ^ i ->
  accumulate bits i frame = frame + 2 ^ i * bits_value bits.
Proof.
  revert i frame; induction bits as [|b bits IH]; intros i frame Hi Hlen Hf.
  - simpl. lia.
  - cbn [accumulate bits_value]. simpl length in Hlen.
    rewrite Nat2Z.inj_succ in Hlen.
    rewrite lor_shifted_bit by assumption.
    assert (Hb : 0 <= Z.b2z b <= 1) by (destruct b; simpl; lia).
    assert (Hp : 2 ^ (i + 1) = 2 * 2 ^ i) by (rewrite Z.pow_add_r; lia).
    assert (Hnext : 0 <= frame + Z.b2z b * 2 ^ i < 2 ^ (i + 1)) by nia.
    assert (Hmax : 2 ^ (i + 1) <= 2 ^ 32) by (apply Z.pow_le_mono_r; lia).
    unfold uint32. rewrite Z.mod_small by lia.
    rewrite IH by (try assumption; lia).
    rewrite Hp. ring.
Qed.

Lemma xor_bits_cancel (a k : list bool) :
  length a = length k -> xor_bits (xor_bits a k) k = a.
Proof.
  revert k; induction a as [|x a IH]; intros [|y k] H; try discriminate;
    [reflexivity|].
  unfold xor_bits in *. simpl. f_equal.
  - now destruct x, y.
  - apply IH. simpl in H. congruence.
Qed.

Lemma xor_bits_length (a k : list bool) :
  length a = length k -> length (xor_bits a k) = length a.
Proof.
  intros H. unfold xor_bits.
  rewrite length_map, length_combine. lia.
Qed.

(** ** Demodulation *)

Lemma int8_uint8_range (x : Z) : - 128 <= int8 (uint8 x) <= 127.
Proof.
  unfold int8, uint8.
  assert (H := Z.mod_pos_bound (x mod 2 ^ 8) (2 ^ 8) eq_refl).
  change (2 ^ 8) with 256 in *. change (2 ^ 7) with 128.
  destruct (Z.ltb_spec ((x mod 256) mod 256) 128); lia.
Qed.

Lemma power_at_range (n : nat) : 0 <= power_at n <= 192.
Proof.
  unfold power_at.
  assert (Hq := int8_uint8_range (ssc_rhr n)).
  assert (Hi := int8_uint8_range (ssc_rhr (S n))).
  set (q := int8 (uint8 (ssc_rhr n))) in *.
  set (i := int8 (uint8 (ssc_rhr (S n)))) in *.
  rewrite Z.shiftr_div_pow2 by lia. change (2 ^ 1) with 2.
  unfold MAX, MIN, ABS.
  destruct (Z.ltb_spec q 0), (Z.ltb_spec i 0);
    match goal with
    | |- context [?a >? ?b] => destruct (Z.gtb_spec a b)
    end;
    match goal with
    | |- context [?a <? ?b] => destruct (Z.ltb_spec a b)
    end;
    match goal with
    | |- context [?a / 2] =>
        assert (0 <= a / 2 <= 64)
          by (split; [apply Z.div_pos; lia
                     | apply Z.div_le_upper_bound; lia])
    end; lia.
Qed.

Lemma sample_power_eq (w : world) :
  sample_power w = (power_at (ssc_pos w), set_ssc_pos (2 + ssc_pos w) w).
Proof. reflexivity. Qed.

Lemma acquire_5_eq (w : world) :
  acquire 5 w =
  ([power_at (ssc_pos w); power_at (2 + ssc_pos w); power_at (4 + ssc_pos w);
    power_at (6 + ssc_pos w); power_at (8 + ssc_pos w)],
   set_ssc_pos (10 + ssc_pos w) w).
Proof. reflexivity. Qed.

Lemma after_nil (w : world) : after 0 0 [] w = w.
Proof.
  destruct w as [th [seed pos] sp mem c tr]. unfold after, legic_prng_forward.
  simpl. now rewrite Nat.add_0_r, app_nil_r.
Qed.

Lemma after_after (k1 m1 k2 m2 : nat) (e1 e2 : list event) (w : world) :
  after k2 m2 e2 (after k1 m1 e1 w) = after (k1 + k2) (m1 + m2) (e1 ++ e2) w.
Proof.
  unfold after, legic_prng_forward. simpl.
  rewrite <- app_assoc. f_equal; [f_equal|]; lia.
Qed.

Lemma emit_eq (e : event) (w : world) : emit e w = after 0 0 [e] w.
Proof.
  destruct w as [th [seed pos] sp mem c tr].
  unfold after, emit, legic_prng_forward. simpl.
  now rewrite Nat.add_0_r.
Qed.

Lemma rx_bit_eq (w : world) :
  rx_bit w =
  (both_above (input_threshold w) (ssc_pos w),
   after 0 10 (rx_logs (input_threshold w) (ssc_pos w) 1) w).
Proof.
  unfold rx_bit. rewrite acquire_5_eq. cbn [nth rx_logs].
  rewrite app_nil_r.
  unfold both_above, both_below, decision_pair. cbn [fst snd].
  change (input_threshold (set_ssc_pos (10 + ssc_pos w) w))
    with (input_threshold w).
  set (w10 := set_ssc_pos (10 + ssc_pos w) w).
  assert (H0 : w10 = after 0 10 [] w).
  { destruct w as [th [seed pos] sp mem c tr].
    unfold w10, after, legic_prng_forward. simpl.
    now rewrite Nat.add_0_r, app_nil_r. }
  destruct ((power_at (4 + ssc_pos w) >? input_threshold w)
            && (power_at (6 + ssc_pos w) >? input_threshold w)); cbn [orb].
  - now rewrite H0.
  - destruct ((power_at (4 + ssc_pos w) <? input_threshold w)
              && (power_at (6 + ssc_pos w) <? input_threshold w)).
    + now rewrite H0.
    + rewrite emit_eq, H0, after_after. reflexivity.
Qed.

(** ** Frames *)

Lemma tx_bit_eq (b : bool) (w : world) :
  tx_bit b w = after 0 0 (pulse b) w.
Proof.
  unfold tx_bit. destruct b; rewrite !emit_eq, !after_after; reflexivity.
Qed.

Lemma forward_forward (a b : nat) (p : legic_prng) :
  legic_prng_forward b (legic_prng_forward a p) = legic_prng_forward (a + b) p.
Proof. unfold legic_prng_forward. simpl. f_equal. lia. Qed.

Lemma forward_0 (p : legic_prng) : legic_prng_forward 0 p = p.
Proof.
  destruct p. unfold legic_prng_forward. simpl. now rewrite Nat.add_0_r.
Qed.

Lemma lfsr_after (k m : nat) (evs : list event) (w : world) :
  lfsr (after k m evs w) = legic_prng_forward k (lfsr w).
Proof. reflexivity. Qed.

Lemma set_lfsr_forward (j : nat) (w : world) :
  set_lfsr (legic_prng_forward j (lfsr w)) w = after j 0 [] w.
Proof.
  destruct w as [th p sp mem c tr]. unfold set_lfsr, after. simpl.
  now rewrite app_nil_r.
Qed.

Lemma keystream_bits_length (p : legic_prng) (n : nat) :
  length (keystream_bits p n) = n.
Proof.
  revert p; induction n as [|n IH]; intros p; simpl; [reflexivity|].
  now rewrite IH.
Qed.

Lemma demod_bits_length (th : Z) (pos n : nat) :
  length (demod_bits th pos n) = n.
Proof.
  revert pos; induction n as [|n IH]; intros pos; simpl; [reflexivity|].
  now rewrite IH.
Qed.

Lemma tx_frame_loop_eq (n : nat) (i frame : Z) (w : world) :
  tx_frame_loop n i frame w =
  after n 0
    (flat_map pulse
       (xor_bits (frame_bits_from frame i n) (keystream_bits (lfsr w) n)))
    w.
Proof.
  revert i w; induction n as [|n IH]; intros i w.
  - simpl. now rewrite after_nil.
  - cbn [tx_frame_loop]. rewrite low_bit_testbit, tx_bit_eq.
    rewrite set_lfsr_forward, IH, !after_after, !lfsr_after.
    cbn [frame_bits_from keystream_bits]. unfold xor_bits at 2.
    cbn [combine map flat_map fst snd].
    reflexivity.
Qed.

Lemma tx_frame_eq (frame len : Z) (w : world) :
  tx_frame frame len w =
  after (Z.to_nat len) 0
    (frame_on_wire
       (xor_bits (frame_bits frame (Z.to_nat len))
                 (keystream_bits (lfsr w) (Z.to_nat len))))
    w.
Proof.
  unfold tx_frame. rewrite emit_eq, tx_frame_loop_eq, !emit_eq, !after_after.
  rewrite lfsr_after, forward_0.
  unfold frame_on_wire, frame_bits, frame_end.
  f_equal; lia.
Qed.

Lemma rx_frame_loop_eq (n : nat) (i frame : Z) (w : world) :
  rx_frame_loop n i frame w =
  (accumulate
     (xor_bits (demod_bits (input_threshold w) (ssc_pos w) n)
               (keystream_bits (lfsr w) n)) i frame,
   after n (10 * n) (rx_logs (input_threshold w) (ssc_pos w) n) w).
Proof.
  revert i frame w; induction n as [|n IH]; intros i frame w.
  - simpl. now rewrite after_nil.
  - cbn [rx_frame_loop]. rewrite rx_bit_eq.
    rewrite set_lfsr_forward, IH, !after_after, !lfsr_after.
    cbn [demod_bits keystream_bits rx_logs accumulate].
    unfold xor_bits at 2. cbn [combine map fst snd accumulate].
    rewrite forward_0, !app_nil_r.
    change (input_threshold (after _ _ _ w)) with (input_threshold w).
    change (ssc_pos (after (0 + 1) (10 + 0) _ w)) with (10 + ssc_pos w)%nat.
    fold (xor_bits
      (demod_bits (input_threshold w) (10 + ssc_pos w) n)
      (keystream_bits (legic_prng_forward 1 (lfsr w)) n)).
    f_equal. f_equal; lia.
Qed.

Lemma rx_frame_eq (len : Z) (w : world) :
  rx_frame len w =
  (accumulate
     (xor_bits (demod_bits (input_threshold w) (ssc_pos w) (Z.to_nat len))
               (keystream_bits (lfsr w) (Z.to_nat len))) 0 0,
   after (Z.to_nat len) (10 * Z.to_nat len)
     (FpgaWriteConfWord FPGA_MAJOR_MODE_HF_READER_RX_XCORR_848_KHZ_QUARTER
        :: rx_logs (input_threshold w) (ssc_pos w) (Z.to_nat len))
     w).
Proof.
  unfold rx_frame. rewrite emit_eq, rx_frame_loop_eq, after_after.
  rewrite lfsr_after, forward_0.
  reflexivity.
Qed.

(** ** Card Type Registry *)

(** C5: for each supported card-type code [init_card] succeeds with the
    geometry of its table entry (0x0d: command width 6, address width 5,
    memory size 22; 0x1d: 9, 8, 256; 0x3d: 11, 10, 1024), and for every other
    code it returns the failure result 2, which differs from the success
    result 0. *)
Theorem C5_init_card_table (cardtype : Z) (p_card : legic_card_select_t) :
  let rc := fst (init_card cardtype p_card) in
  let c := snd (init_card cardtype p_card) in
  (cardtype = 0x0d ->
   rc = 0 /\ cmdsize c = 6 /\ addrsize c = 5 /\ cardsize c = 22) /\
  (cardtype = 0x1d ->
   rc = 0 /\ cmdsize c = 9 /\ addrsize c = 8 /\ cardsize c = 256) /\
  (cardtype = 0x3d ->
   rc = 0 /\ cmdsize c = 11 /\ addrsize c = 10 /\ cardsize c = 1024) /\
  (cardtype <> 0x0d -> cardtype <> 0x1d -> cardtype <> 0x3d ->
   rc = 2 /\ rc <> 0).
Proof.
  cbv zeta. unfold init_card. cbn [tagtype].
  split; [intros ->; repeat split|].
  split; [intros ->; repeat split|].
  split; [intros ->; repeat split|].
  intros H1 H2 H3.
  destruct (Z.eqb_spec cardtype 0x0d); [contradiction|].
  destruct (Z.eqb_spec cardtype 0x1d); [contradiction|].
  destruct (Z.eqb_spec cardtype 0x3d); [contradiction|].
  cbn [fst]. lia.
Qed.

(** C6, as amended: for every unrecognized tag-type code [init_card] fails
    (result 2) and zeroes the three geometry fields (command width, address
    width, card size); the tag type field holds the unrecognized code itself
    and the UID is left as it was. *)
Theorem C6_init_card_unrecognized (cardtype : Z) (p_card : legic_card_select_t) :
  cardtype <> 0x0d -> cardtype <> 0x1d -> cardtype <> 0x3d ->
  let c := snd (init_card cardtype p_card) in
  fst (init_card cardtype p_card) = 2 /\
  cmdsize c = 0 /\ addrsize c = 0 /\ cardsize c = 0 /\
  tagtype c = cardtype /\ uid c = uid p_card.
Proof.
  intros H1 H2 H3. cbv zeta. unfold init_card. cbn [tagtype].
  destruct (Z.eqb_spec cardtype 0x0d); [contradiction|].
  destruct (Z.eqb_spec cardtype 0x1d); [contradiction|].
  destruct (Z.eqb_spec cardtype 0x3d); [contradiction|].
  repeat split.
Qed.

(** ** Bit Demodulator *)

(** C8: with [p2] and [p3] the 3rd and 4th of the five samples acquired for
    the bit, [rx_bit] returns 1 without any print when both exceed the
    threshold, 0 without any print when both are under it, and in every
    other case returns 0 after printing the pair and the threshold on the
    debug channel; in all three cases it returns normally, five samples (ten
    bytes) further in the stream. *)
Theorem C8_rx_bit_decision (w : world) :
  let p := fst (acquire 5 w) in
  let p2 := nth 2 p 0 in
  let p3 := nth 3 p 0 in
  let th := input_threshold w in
  (p2 > th /\ p3 > th -> rx_bit w = (true, after 0 10 [] w)) /\
  (p2 < th /\ p3 < th -> rx_bit w = (false, after 0 10 [] w)) /\
  (~ (p2 > th /\ p3 > th) -> ~ (p2 < th /\ p3 < th) ->
   rx_bit w =
   (false, after 0 10 [Dbprintf rx_bit_failed_fmt [p2; p3; th]] w)).
Proof.
  cbv zeta. rewrite acquire_5_eq, rx_bit_eq. cbn [fst nth rx_logs].
  unfold both_above, both_below, decision_pair. cbn [fst snd].
  rewrite app_nil_r.
  set (p2 := power_at (4 + ssc_pos w)). set (p3 := power_at (6 + ssc_pos w)).
  set (th := input_threshold w).
  destruct (Z.gtb_spec p2 th), (Z.gtb_spec p3 th),
    (Z.ltb_spec p2 th), (Z.ltb_spec p3 th); cbn [andb orb];
    repeat split; intros; try reflexivity; lia.
Qed.

(** C10: the comparisons are strict both ways, so when the 3rd or the 4th
    sample equals the threshold [rx_bit] takes the ambiguous branch whatever
    the other sample is: it prints the pair and returns 0. *)
Theorem C10_rx_bit_sample_at_threshold (w : world) :
  let p := fst (acquire 5 w) in
  let p2 := nth 2 p 0 in
  let p3 := nth 3 p 0 in
  let th := input_threshold w in
  p2 = th \/ p3 = th ->
  rx_bit w = (false, after 0 10 [Dbprintf rx_bit_failed_fmt [p2; p3; th]] w).
Proof.
  cbv zeta. intros H.
  revert H. rewrite acquire_5_eq, rx_bit_eq. cbn [fst nth rx_logs].
  unfold both_above, both_below, decision_pair. cbn [fst snd].
  rewrite app_nil_r.
  set (p2 := power_at (4 + ssc_pos w)). set (p3 := power_at (6 + ssc_pos w)).
  set (th := input_threshold w). intros H.
  destruct (Z.gtb_spec p2 th), (Z.gtb_spec p3 th),
    (Z.ltb_spec p2 th), (Z.ltb_spec p3 th); cbn [andb orb];
    try reflexivity; lia.
Qed.

(** ** Threshold Calibrator *)

Lemma fold_left_max_bounded (l : list Z) (t : Z) :
  (forall s, In s l -> s <= t) -> fold_left Z.max l t = t.
Proof.
  revert t; induction l as [|a l IH]; intros t H; [reflexivity|].
  cbn [fold_left]. rewrite Z.max_l by (apply H; now left).
  apply IH. intros s Hs. apply H. now right.
Qed.

Lemma fold_left_max_greatest (l : list Z) (t M : Z) :
  In M l -> (forall s, In s l -> s <= M) ->
  fold_left Z.max l t = Z.max t M.
Proof.
  revert t; induction l as [|a l IH]; intros t Hin Hle; [contradiction|].
  cbn [fold_left].
  assert (Ha : a <= M) by (apply Hle; now left).
  destruct Hin as [->|Hin].
  - apply fold_left_max_bounded. intros s Hs.
    assert (s <= M) by (apply Hle; now right). lia.
  - rewrite IH; [lia|assumption|]. intros s Hs. apply Hle. now right.
Qed.

Lemma observed_range (pos n : nat) (s : Z) :
  In s (observed pos n) -> 0 <= s <= 192.
Proof.
  revert pos; induction n as [|n IH]; intros pos H; [contradiction|].
  destruct H as [<-|H]; [apply power_at_range|eauto].
Qed.

Lemma acquire_observed (n : nat) (w : world) :
  fst (acquire n w) = observed (ssc_pos w) n.
Proof.
  revert w; induction n as [|n IH]; intros w; [reflexivity|].
  cbn [acquire observed]. rewrite sample_power_eq.
  specialize (IH (set_ssc_pos (2 + ssc_pos w) w)).
  destruct (acquire n (set_ssc_pos (2 + ssc_pos w) w)) as [p w'].
  cbn [fst] in *. now rewrite IH.
Qed.

Lemma calibrate_eq (n : nat) (w : world) :
  calibrate n w =
  set_input_threshold
    (fold_left Z.max (observed (ssc_pos w) n) (input_threshold w))
    (set_ssc_pos (2 * n + ssc_pos w) w).
Proof.
  revert w; induction n as [|n IH]; intros w.
  - now destruct w.
  - cbn [calibrate observed fold_left]. rewrite sample_power_eq.
    change (input_threshold (set_ssc_pos (2 + ssc_pos w) w))
      with (input_threshold w).
    destruct (Z.gtb_spec (power_at (ssc_pos w)) (input_threshold w)) as [H|H];
      rewrite IH; destruct w as [th pr sp mem c tr];
      unfold set_input_threshold, set_ssc_pos; cbn [input_threshold lfsr
        ssc_pos legic_mem card trace] in *;
      first [rewrite Z.max_r by lia | rewrite Z.max_l by lia];
      f_equal; lia.
Qed.

(** Each step applied to a world given field by field. *)

Lemma emit_mk (e : event) th p pos mem c tr :
  emit e (mk_world th p pos mem c tr) = mk_world th p pos mem c (tr ++ [e]).
Proof. reflexivity. Qed.

Lemma set_input_threshold_mk (t : Z) th p pos mem c tr :
  set_input_threshold t (mk_world th p pos mem c tr)
  = mk_world t p pos mem c tr.
Proof. reflexivity. Qed.

Lemma set_lfsr_mk (q : legic_prng) th p pos mem c tr :
  set_lfsr q (mk_world th p pos mem c tr) = mk_world th q pos mem c tr.
Proof. reflexivity. Qed.

Lemma set_card_mk (d : legic_card_select_t) th p pos mem c tr :
  set_card d (mk_world th p pos mem c tr) = mk_world th p pos mem d tr.
Proof. reflexivity. Qed.

Lemma calibrate_mk (n : nat) th p pos mem c tr :
  calibrate n (mk_world th p pos mem c tr)
  = mk_world (fold_left Z.max (observed pos n) th) p (2 * n + pos) mem c tr.
Proof. rewrite calibrate_eq. reflexivity. Qed.

Lemma tx_frame_mk (frame len : Z) th p pos mem c tr :
  tx_frame frame len (mk_world th p pos mem c tr)
  = mk_world th (legic_prng_forward (Z.to_nat len) p) pos mem c
      (tr ++ frame_on_wire
               (xor_bits (frame_bits frame (Z.to_nat len))
                         (keystream_bits p (Z.to_nat len)))).
Proof. rewrite tx_frame_eq. reflexivity. Qed.

Lemma rx_frame_mk (len : Z) th p pos mem c tr :
  rx_frame len (mk_world th p pos mem c tr)
  = (accumulate
       (xor_bits (demod_bits th pos (Z.to_nat len))
                 (keystream_bits p (Z.to_nat len))) 0 0,
     mk_world th (legic_prng_forward (Z.to_nat len) p)
       (10 * Z.to_nat len + pos) mem c
       (tr ++ FpgaWriteConfWord
                FPGA_MAJOR_MODE_HF_READER_RX_XCORR_848_KHZ_QUARTER
             :: rx_logs th pos (Z.to_nat len))).
Proof. rewrite rx_frame_eq. reflexivity. Qed.

Ltac world_step :=
  first [ rewrite emit_mk | rewrite set_input_threshold_mk
        | rewrite set_lfsr_mk | rewrite set_card_mk | rewrite calibrate_mk
        | rewrite tx_frame_mk | rewrite rx_frame_mk ];
  cbn [input_threshold lfsr ssc_pos legic_mem card trace].

Lemma setup_phase_reader_eq (iv : Z) (w : world) :
  let th := calibrated_threshold (ssc_pos w) in
  let card_type := int32 (accumulate (type_bits iv (ssc_pos w)) 0 0) in
  let known :=
    (card_type =? 0x0D) || (card_type =? 0x1D) || (card_type =? 0x3D) in
  setup_phase_reader iv w =
  (uint32 card_type,
   mk_world th
     (legic_prng_forward (if known then 14 else 8) (legic_prng_init iv))
     (60 + (2 * S charge_samples + ssc_pos w))
     (legic_mem w) (card w)
     (trace w
      ++ [GetCountUS]
      ++ frame_on_wire
           (xor_bits (frame_bits iv 7) (keystream_bits (legic_prng_init 0) 7))
      ++ [GetCountUS; WaitUntil TAG_FRAME_WAIT]
      ++ (FpgaWriteConfWord
            FPGA_MAJOR_MODE_HF_READER_RX_XCORR_848_KHZ_QUARTER
            :: rx_logs th (2 * S charge_samples + ssc_pos w) 6)
      ++ (if card_type =? 0x0D then ack_on_wire iv 0x19
          else if (card_type =? 0x1D) || (card_type =? 0x3D)
               then ack_on_wire iv 0x39
               else []))).
Proof.
  destruct w as [th0 pr sp mem c tr].
  cbn [input_threshold lfsr ssc_pos legic_mem card trace].
  unfold setup_phase_reader.
  do 10 world_step.
  change (Z.to_nat 7) with 7%nat. change (Z.to_nat 6) with 6%nat.
  fold (calibrated_threshold sp).
  world_step. change (Z.to_nat 6) with 6%nat.
  fold (type_bits iv sp).
  set (ct := int32 (accumulate (type_bits iv sp) 0 0)).
  destruct (ct =? 0x0D); cbn [orb];
    [|destruct ((ct =? 0x1D) || (ct =? 0x3D))];
    try world_step; change (Z.to_nat 6) with 6%nat;
    unfold ack_on_wire;
    rewrite ?forward_forward, <- ?app_assoc, ?app_nil_r;
    reflexivity.
Qed.

(** C7: with [M] the greatest of the power samples observed by the
    calibration loop, the threshold in force once [setup_phase_reader]
    returns is exactly [2 * max M 8]: [2 * M] when [M] is at least 8, and 16
    when every sample is below 8. *)
Theorem C7_calibrated_threshold (iv : Z) (w : world) (M : Z) :
  let samples := observed (ssc_pos w) (S charge_samples) in
  In M samples ->
  (forall s, In s samples -> s <= M) ->
  let th := input_threshold (snd (setup_phase_reader iv w)) in
  th = 2 * Z.max M 8 /\ (8 <= M -> th = 2 * M) /\ (M < 8 -> th = 16).
Proof.
  cbv zeta. intros Hin Hmax.
  pose proof (setup_phase_reader_eq iv w) as E. cbv zeta in E.
  rewrite E. cbn [snd input_threshold].
  unfold calibrated_threshold.
  rewrite (fold_left_max_greatest _ 8 M Hin Hmax).
  pose proof (observed_range _ _ _ Hin) as HM.
  rewrite Z.shiftl_mul_pow2 by lia. change (2 ^ 1) with 2.
  assert (Hth : int32 (Z.max 8 M * 2) = 2 * Z.max M 8).
  { unfold int32, uint32.
    rewrite Z.mod_small by (change (2 ^ 32) with 4294967296; lia).
    destruct (Z.ltb_spec (Z.max 8 M * 2) (2 ^ 31)) as [_|H]; [lia|].
    change (2 ^ 31) with 2147483648 in H. lia. }
  rewrite Hth. repeat split; lia.
Qed.

(** ** Session Handshake *)

Lemma appended_app (w w' : world) (evs : list event) :
  trace w' = trace w ++ evs -> appended w w' = evs.
Proof.
  intros H. unfold appended. rewrite H, skipn_app, skipn_all, Nat.sub_diag.
  reflexivity.
Qed.

Lemma non_debug_app (a b : list event) :
  non_debug (a ++ b) = non_debug a ++ non_debug b.
Proof. apply filter_app. Qed.

Lemma non_debug_frame_on_wire (bits : list bool) :
  non_debug (frame_on_wire bits) = frame_on_wire bits.
Proof.
  unfold frame_on_wire, non_debug. cbn [filter is_Dbprintf negb].
  f_equal. rewrite filter_app. f_equal.
  induction bits as [|b bits IH]; [reflexivity|].
  cbn [flat_map]. rewrite filter_app, IH. reflexivity.
Qed.

Lemma non_debug_rx_logs (th : Z) (pos n : nat) :
  non_debug (rx_logs th pos n) = [].
Proof.
  revert pos; induction n as [|n IH]; intros pos; [reflexivity|].
  cbn [rx_logs]. rewrite non_debug_app, IH, app_nil_r.
  now destruct (both_above th pos || both_below th pos).
Qed.

Lemma type_bits_length (iv : Z) (pos : nat) :
  length (type_bits iv pos) = 6%nat.
Proof.
  unfold type_bits.
  rewrite xor_bits_length; rewrite demod_bits_length; [reflexivity|].
  now rewrite keystream_bits_length.
Qed.

Lemma card_type_value (iv : Z) (pos : nat) :
  int32 (accumulate (type_bits iv pos) 0 0) = bits_value (type_bits iv pos)
  /\ 0 <= bits_value (type_bits iv pos) < 64.
Proof.
  pose proof (bits_value_range (type_bits iv pos)) as R.
  rewrite type_bits_length in R. change (2 ^ Z.of_nat 6) with 64 in R.
  split; [|assumption].
  rewrite accumulate_value;
    rewrite ?type_bits_length; try (simpl; lia).
  change (2 ^ 0) with 1. rewrite Z.add_0_l, Z.mul_1_l.
  unfold int32, uint32.
  rewrite Z.mod_small by (change (2 ^ 32) with 4294967296; lia).
  destruct (Z.ltb_spec (bits_value (type_bits iv pos)) (2 ^ 31)) as [_|H];
    [reflexivity|].
  change (2 ^ 31) with 2147483648 in H. lia.
Qed.

(** C4: what [setup_phase_reader] does after the calibration, in order.  The
    calls other than debug prints are: the timestamp of the calibration; the
    7-bit frame of the IV, each bit xor-ed with the keystream of seed 0 from
    position 0; a timestamp and the wait of [TAG_FRAME_WAIT] = 330 us; the
    switch to reception.  The card type returned is the value of the six
    demodulated bits xor-ed with the keystream of seed [iv] from position 2.
    Then the 6-bit frame 0x19 is sent for type 0x0D, the 6-bit frame 0x39
    for types 0x1D and 0x3D (keystream of seed [iv] from position 8), and
    nothing at all for any other type.  The keystream ends at seed [iv],
    position 14 when an acknowledgment was sent and 8 otherwise.  The seed
    is the whole IV argument as a byte, [iv mod 2 ^ 8], while the value that
    went on the wire is its low seven bits, [iv mod 2 ^ 7]: the two agree
    only for an IV below 128. *)
Theorem C4_handshake_steps (iv : Z) (w : world) :
  let card_type := fst (setup_phase_reader iv w) in
  let w' := snd (setup_phase_reader iv w) in
  let known :=
    (card_type =? 0x0D) || (card_type =? 0x1D) || (card_type =? 0x3D) in
  card_type = bits_value (type_bits iv (ssc_pos w)) /\
  non_debug (appended w w') =
    [GetCountUS]
    ++ frame_on_wire
         (xor_bits (frame_bits iv 7) (keystream_bits (legic_prng_init 0) 7))
    ++ [GetCountUS; WaitUntil 330;
        FpgaWriteConfWord FPGA_MAJOR_MODE_HF_READER_RX_XCORR_848_KHZ_QUARTER]
    ++ (if card_type =? 0x0D then ack_on_wire iv 0x19
        else if (card_type =? 0x1D) || (card_type =? 0x3D)
             then ack_on_wire iv 0x39
             else []) /\
  lfsr w' =
    legic_prng_forward (if known then 14 else 8) (legic_prng_init iv) /\
  ssc_pos w' = (60 + (2 * S charge_samples + ssc_pos w))%nat /\
  bits_value (frame_bits iv 7) = iv mod 2 ^ 7 /\
  prng_seed (lfsr w') = iv mod 2 ^ 8.
Proof.
  cbv zeta.
  pose proof (setup_phase_reader_eq iv w) as E. cbv zeta in E.
  destruct (card_type_value iv (ssc_pos w)) as [Hct Hrange].
  rewrite Hct in E.
  assert (Hu : uint32 (bits_value (type_bits iv (ssc_pos w)))
               = bits_value (type_bits iv (ssc_pos w))).
  { unfold uint32. apply Z.mod_small.
    change (2 ^ 32) with 4294967296. lia. }
  rewrite Hu in E. rewrite E. cbn [fst snd lfsr ssc_pos].
  split; [reflexivity|]. split.
  - erewrite appended_app by (cbn [trace]; reflexivity).
    rewrite !non_debug_app, !non_debug_frame_on_wire.
    cbn [non_debug filter is_Dbprintf negb].
    fold (non_debug (rx_logs (calibrated_threshold (ssc_pos w))
                       (2 * S charge_samples + ssc_pos w) 6)).
    rewrite non_debug_rx_logs.
    unfold ack_on_wire.
    destruct (bits_value (type_bits iv (ssc_pos w)) =? 0x0D);
      [|destruct ((bits_value (type_bits iv (ssc_pos w)) =? 0x1D)
                  || (bits_value (type_bits iv (ssc_pos w)) =? 0x3D))];
      rewrite ?non_debug_frame_on_wire; reflexivity.
  - split; [reflexivity|]. split; [reflexivity|]. split.
    + unfold frame_bits. rewrite bits_value_frame_bits_from by lia.
      now rewrite Z.shiftr_0_r.
    + reflexivity.
Qed.

(** ** Frame Transceiver *)

Lemma wire_bits_frame_on_wire (bits : list bool) :
  wire_bits (frame_on_wire bits) = bits.
Proof.
  unfold wire_bits, frame_on_wire. cbn [flat_map wire_bit app].
  rewrite flat_map_app. cbn [frame_end flat_map wire_bit app].
  change (RWD_TIME_PAUSE =? RWD_TIME_1) with false.
  change (RWD_TIME_PAUSE =? RWD_TIME_0) with false.
  cbn [app]. rewrite app_nil_r.
  induction bits as [|b bits IH]; [reflexivity|].
  cbn [flat_map pulse]. rewrite flat_map_app, IH.
  now destruct b.
Qed.

Lemma presents_demod_bits (th : Z) (pos : nat) (bits : list bool) :
  presents th pos bits = true ->
  demod_bits th pos (length bits) = bits.
Proof.
  revert pos; induction bits as [|b bits IH]; intros pos H; [reflexivity|].
  cbn [presents] in H. apply andb_prop in H. destruct H as [Hb Hrest].
  cbn [length demod_bits]. rewrite (IH _ Hrest). f_equal.
  destruct b; [assumption|].
  unfold both_above, both_below in *.
  apply andb_prop in Hb. destruct Hb as [H2 _].
  destruct (Z.ltb_spec (fst (decision_pair pos)) th); [|discriminate].
  destruct (Z.gtb_spec (fst (decision_pair pos)) th); [lia|reflexivity].
Qed.

(** C2: a frame of [L] bits moves the keystream exactly [L] positions
    further, on transmission and on reception alike, whatever the bits and
    whatever the decisions of the demodulator.  And for a length [L] between
    1 and 32 and a value [V] below [2 ^ L]: when the receiver's keystream
    stands where the transmitter's stood and the front-end presents to the
    receiver the bits that [tx_frame V L] put on the wire, [rx_frame L]
    returns [V]. *)
Theorem C2_frame_round_trip (L V : Z) (wt wr : world) :
  let sent := wire_bits (appended wt (tx_frame V L wt)) in
  lfsr (tx_frame V L wt) = legic_prng_forward (Z.to_nat L) (lfsr wt) /\
  prng_pos (lfsr (tx_frame V L wt)) = (prng_pos (lfsr wt) + Z.to_nat L)%nat /\
  lfsr (snd (rx_frame L wr)) = legic_prng_forward (Z.to_nat L) (lfsr wr) /\
  prng_pos (lfsr (snd (rx_frame L wr)))
    = (prng_pos (lfsr wr) + Z.to_nat L)%nat /\
  (1 <= L <= 32 -> 0 <= V < 2 ^ L ->
   lfsr wr = lfsr wt ->
   presents (input_threshold wr) (ssc_pos wr) sent = true ->
   fst (rx_frame L wr) = V).
Proof.
  cbv zeta. rewrite tx_frame_eq, rx_frame_eq. cbn [fst snd].
  rewrite !lfsr_after.
  repeat (split; [reflexivity|]).
  intros HL HV Hsync Hchan.
  erewrite appended_app in Hchan by (unfold after; cbn [trace]; reflexivity).
  rewrite wire_bits_frame_on_wire in Hchan.
  set (n := Z.to_nat L) in *.
  set (sent := xor_bits (frame_bits V n) (keystream_bits (lfsr wt) n)) in *.
  assert (Hlen : length sent = n).
  { unfold sent. rewrite xor_bits_length; unfold frame_bits;
      rewrite frame_bits_from_length; [reflexivity|].
    now rewrite keystream_bits_length. }
  apply presents_demod_bits in Hchan. rewrite Hlen in Hchan.
  rewrite Hchan, Hsync. unfold sent.
  rewrite xor_bits_cancel
    by (unfold frame_bits;
        now rewrite frame_bits_from_length, keystream_bits_length).
  assert (HnL : Z.of_nat n = L) by (unfold n; lia).
  rewrite accumulate_value.
  - change (2 ^ 0) with 1.
    rewrite bits_value_frame_bits by (rewrite HnL; lia). lia.
  - lia.
  - unfold frame_bits. rewrite frame_bits_from_length. lia.
  - simpl. lia.
Qed.

(** ** Byte Read Protocol *)

Lemma bits_value_app (a b : list bool) :
  bits_value (a ++ b) = bits_value a + 2 ^ Z.of_nat (length a) * bits_value b.
Proof.
  induction a as [|x a IH]; cbn [app bits_value length].
  - change (2 ^ Z.of_nat 0) with 1. lia.
  - rewrite IH, Nat2Z.inj_succ, Z.pow_succ_r by lia. ring.
Qed.

Lemma response_bits_length (width : nat) (w : world) :
  length (response_bits width w) = 12%nat.
Proof.
  unfold response_bits.
  rewrite xor_bits_length; rewrite demod_bits_length; [reflexivity|].
  now rewrite keystream_bits_length.
Qed.

Lemma response_data_range (width : nat) (w : world) :
  0 <= response_data width w < 256.
Proof.
  unfold response_data.
  pose proof (bits_value_range (firstn 8 (response_bits width w))) as R.
  rewrite length_firstn, response_bits_length in R. exact R.
Qed.

Lemma response_crc_range (width : nat) (w : world) :
  0 <= response_crc width w < 16.
Proof.
  unfold response_crc.
  pose proof (bits_value_range (skipn 8 (response_bits width w))) as R.
  rewrite length_skipn, response_bits_length in R. exact R.
Qed.

Lemma response_frame_split (width : nat) (w : world) :
  accumulate (response_bits width w) 0 0
  = response_data width w + 256 * response_crc width w.
Proof.
  rewrite accumulate_value;
    rewrite ?response_bits_length; try (simpl; lia).
  change (2 ^ 0) with 1. rewrite Z.add_0_l, Z.mul_1_l.
  rewrite <- (firstn_skipn 8 (response_bits width w)) at 1.
  rewrite bits_value_app, length_firstn, response_bits_length.
  reflexivity.
Qed.

Lemma BYTEx_0_response (width : nat) (w : world) :
  uint8 (BYTEx (accumulate (response_bits width w) 0 0) 0)
  = response_data width w.
Proof.
  rewrite response_frame_split.
  pose proof (response_data_range width w) as Hd.
  unfold BYTEx, uint8. change (0 * 8) with 0. rewrite Z.shiftr_0_r.
  change 255 with (Z.ones 8). rewrite Z.land_ones by lia.
  change (2 ^ 8) with 256. rewrite Z.mod_mod by lia.
  rewrite Z.mul_comm, Z.mod_add by lia. now apply Z.mod_small.
Qed.

Lemma BYTEx_1_response (width : nat) (w : world) :
  uint8 (BYTEx (accumulate (response_bits width w) 0 0) 1)
  = response_crc width w.
Proof.
  rewrite response_frame_split.
  pose proof (response_data_range width w) as Hd.
  pose proof (response_crc_range width w) as Hc.
  unfold BYTEx, uint8. change (1 * 8) with 8.
  rewrite Z.shiftr_div_pow2 by lia.
  change 255 with (Z.ones 8). rewrite Z.land_ones by lia.
  change (2 ^ 8) with 256. rewrite Z.mod_mod by lia.
  rewrite Z.mul_comm, Z.div_add by lia.
  rewrite Z.div_small by lia. rewrite Z.add_0_l.
  apply Z.mod_small. lia.
Qed.

Lemma read_byte_eq (index cmd_sz : Z) (w : world) :
  let cmd := uint16 (Z.lor (Z.shiftl index 1) LEGIC_READ) in
  let width := Z.to_nat cmd_sz in
  let data := response_data width w in
  let crc := response_crc width w in
  let calc := calc_crc4 cmd cmd_sz data in
  read_byte index cmd_sz w =
  (if calc =? crc then data else -1,
   after (width + 12) 120
     (frame_on_wire
        (xor_bits (frame_bits cmd width) (keystream_bits (lfsr w) width))
      ++ (FpgaWriteConfWord FPGA_MAJOR_MODE_HF_READER_RX_XCORR_848_KHZ_QUARTER
            :: rx_logs (input_threshold w) (ssc_pos w) 12)
      ++ (if calc =? crc then []
          else [Dbprintf crc_mismatch_fmt [calc; crc]]))
     w).
Proof.
  cbv zeta. unfold read_byte.
  rewrite tx_frame_eq, rx_frame_eq. change (Z.to_nat 12) with 12%nat.
  rewrite lfsr_after.
  change (input_threshold (after _ _ _ w)) with (input_threshold w).
  change (ssc_pos (after (Z.to_nat cmd_sz) 0 _ w)) with (ssc_pos w).
  fold (response_bits (Z.to_nat cmd_sz) w).
  rewrite BYTEx_0_response, BYTEx_1_response.
  destruct (calc_crc4 _ cmd_sz (response_data (Z.to_nat cmd_sz) w)
            =? response_crc (Z.to_nat cmd_sz) w); cbn [negb].
  - rewrite after_after, app_nil_r. reflexivity.
  - rewrite emit_eq, !after_after.
    f_equal.
Qed.

Lemma lor_below_pow2 (a b n : Z) :
  0 <= n -> 0 <= a < 2 ^ n -> 0 <= b < 2 ^ n -> 0 <= Z.lor a b < 2 ^ n.
Proof.
  intros Hn Ha Hb.
  assert (H0 : 0 <= Z.lor a b) by (apply Z.lor_nonneg; lia).
  split; [assumption|].
  destruct (Z.eq_dec (Z.lor a b) 0) as [->|Hnz]; [lia|].
  apply Z.log2_lt_pow2; [lia|].
  rewrite Z.log2_lor by lia.
  destruct (Z.eq_dec a 0) as [->|Ha0], (Z.eq_dec b 0) as [->|Hb0];
    try (simpl in Hnz; lia).
  - rewrite Z.max_r by (rewrite Z.log2_nonpos by lia; apply Z.log2_nonneg).
    apply Z.log2_lt_pow2; lia.
  - rewrite Z.max_l by (rewrite (Z.log2_nonpos 0) by lia; apply Z.log2_nonneg).
    apply Z.log2_lt_pow2; lia.
  - apply Z.max_lub_lt; apply Z.log2_lt_pow2; lia.
Qed.

(** C3: [read_byte] sends the command [(index << 1) | LEGIC_READ] (a
    [uint16_t]) as a frame of [cmd_sz] bits, switches to reception and takes
    in twelve bit periods: a data byte, then a CRC nibble.  The CRC is
    computed by the collaborator over [(data << cmd_sz) | cmd], on
    [8 + cmd_sz] bits.  When the nibble received equals the CRC computed,
    the result is the data byte, between 0 and 255, and no mismatch is
    printed; otherwise the result is -1, which no data byte equals, and the
    two values are printed. *)
Theorem C3_read_byte_crc_check (index cmd_sz : Z) (w : world) :
  let cmd := uint16 (Z.lor (Z.shiftl index 1) LEGIC_READ) in
  let width := Z.to_nat cmd_sz in
  let data := response_data width w in
  let crc := response_crc width w in
  let calc := uint8 (crc4 (uint32 (Z.lor (Z.shiftl data cmd_sz) cmd))
                          (8 + cmd_sz)) in
  let r := fst (read_byte index cmd_sz w) in
  let w' := snd (read_byte index cmd_sz w) in
  non_debug (appended w w') =
    frame_on_wire
      (xor_bits (frame_bits cmd width) (keystream_bits (lfsr w) width))
    ++ [FpgaWriteConfWord FPGA_MAJOR_MODE_HF_READER_RX_XCORR_848_KHZ_QUARTER]
  /\ lfsr w' = legic_prng_forward (width + 12) (lfsr w)
  /\ ssc_pos w' = (120 + ssc_pos w)%nat
  /\ 0 <= data < 256 /\ 0 <= crc < 16
  /\ (0 <= cmd_sz <= 24 ->
      uint32 (Z.lor (Z.shiftl data cmd_sz) cmd)
      = Z.lor (Z.shiftl data cmd_sz) cmd)
  /\ (crc = calc ->
      r = data /\ r <> -1 /\ filter is_crc_mismatch (appended w w') = [])
  /\ (crc <> calc ->
      r = -1 /\
      filter is_crc_mismatch (appended w w')
      = [Dbprintf crc_mismatch_fmt [calc; crc]]).
Proof.
  cbv zeta.
  pose proof (read_byte_eq index cmd_sz w) as E. cbv zeta in E.
  unfold calc_crc4 in E. rewrite E. cbn [fst snd]. clear E.
  set (cmd := uint16 (Z.lor (Z.shiftl index 1) LEGIC_READ)).
  set (width := Z.to_nat cmd_sz).
  pose proof (response_data_range width w) as Hd.
  pose proof (response_crc_range width w) as Hc.
  set (data := response_data width w) in *.
  set (crc := response_crc width w) in *.
  set (calc := uint8 (crc4 (uint32 (Z.lor (Z.shiftl data cmd_sz) cmd))
                           (8 + cmd_sz))).
  erewrite appended_app by (unfold after; cbn [trace]; reflexivity).
  assert (Hquiet : forall bits,
             filter is_crc_mismatch (frame_on_wire bits) = []).
  { intros bits. unfold frame_on_wire. cbn [filter is_crc_mismatch].
    rewrite filter_app. cbn [frame_end filter is_crc_mismatch].
    rewrite app_nil_r.
    induction bits as [|b bits IH]; [reflexivity|].
    cbn [flat_map pulse]. rewrite filter_app, IH. reflexivity. }
  assert (Hlogs : forall th pos n,
             filter is_crc_mismatch (rx_logs th pos n) = []).
  { intros th pos n. revert pos; induction n as [|n IH]; intros pos;
      [reflexivity|].
    cbn [rx_logs]. rewrite filter_app, IH, app_nil_r.
    now destruct (both_above th pos || both_below th pos). }
  split.
  { rewrite !non_debug_app, non_debug_frame_on_wire.
    cbn [non_debug filter is_Dbprintf negb].
    fold (non_debug (rx_logs (input_threshold w) (ssc_pos w) 12)).
    rewrite non_debug_rx_logs. cbn [app].
    now destruct (calc =? crc). }
  split; [reflexivity|]. split; [reflexivity|].
  split; [assumption|]. split; [assumption|]. split.
  { intros Hsz. unfold uint32. apply Z.mod_small.
    apply lor_below_pow2; [lia| |].
    - rewrite Z.shiftl_mul_pow2 by lia. split; [nia|].
      assert (2 ^ cmd_sz <= 2 ^ 24) by (apply Z.pow_le_mono_r; lia).
      assert (0 < 2 ^ cmd_sz) by (apply Z.pow_pos_nonneg; lia).
      change (2 ^ 32) with (256 * 2 ^ 24). nia.
    - unfold cmd, uint16.
      pose proof (Z.mod_pos_bound (Z.lor (Z.shiftl index 1) LEGIC_READ)
                    (2 ^ 16) eq_refl) as Hm.
      change (2 ^ 16) with 65536 in *. change (2 ^ 32) with 4294967296.
      lia. }
  rewrite !filter_app, Hquiet. cbn [filter is_crc_mismatch app].
  rewrite Hlogs. cbn [app].
  split.
  - intros Heq. rewrite <- Heq, Z.eqb_refl.
    repeat split; lia.
  - intros Hne. destruct (Z.eqb_spec calc crc) as [Heq|_]; [congruence|].
    split; reflexivity.
Qed.

(** ** Bulk Read *)

Lemma quiet_frame_on_wire (bits : list bool) :
  forallb quiet (frame_on_wire bits) = true.
Proof.
  unfold frame_on_wire. cbn [forallb quiet is_cmd_send is_crc_mismatch
                               negb andb].
  rewrite forallb_app. cbn [frame_end forallb quiet is_cmd_send
                              is_crc_mismatch negb andb].
  rewrite andb_true_r.
  induction bits as [|b bits IH]; [reflexivity|].
  cbn [flat_map pulse]. rewrite forallb_app, IH. reflexivity.
Qed.

Lemma quiet_rx_logs (th : Z) (pos n : nat) :
  forallb quiet (rx_logs th pos n) = true.
Proof.
  revert pos; induction n as [|n IH]; intros pos; [reflexivity|].
  cbn [rx_logs]. rewrite forallb_app, IH, andb_true_r.
  now destruct (both_above th pos || both_below th pos).
Qed.

Lemma quiet_unseen (evs : list event) :
  forallb quiet evs = true ->
  host_view evs = [] /\ existsb is_crc_mismatch evs = false.
Proof.
  induction evs as [|e evs IH]; intros H; [split; reflexivity|].
  cbn [forallb] in H. apply andb_prop in H. destruct H as [He Hrest].
  destruct (IH Hrest) as [Hh Hx].
  unfold quiet in He. apply andb_prop in He. destruct He as [H1 H2].
  apply negb_true_iff in H1. apply negb_true_iff in H2.
  unfold host_view in *. cbn [filter existsb]. rewrite H1, H2, Hx.
  split; [assumption|reflexivity].
Qed.

Lemma init_reader_eq (clear_mem : bool) (w : world) :
  init_reader clear_mem w =
  mk_world (input_threshold w) (lfsr w) (ssc_pos w)
           (repeat 0 (Z.to_nat LEGIC_CARD_MEMSIZE)) (card w)
           (trace w ++ init_reader_calls).
Proof.
  destruct w as [th p pos mem c tr].
  cbn [input_threshold lfsr ssc_pos legic_mem card trace].
  unfold init_reader. do 6 world_step.
  unfold set_legic_mem at 1.
  cbn [input_threshold lfsr ssc_pos legic_mem card trace].
  do 4 world_step.
  unfold init_reader_calls. rewrite <- !app_assoc. reflexivity.
Qed.

Lemma trace_store (i v : Z) (w : world) : trace (store i v w) = trace w.
Proof. unfold store. now destruct (i <? 0). Qed.

Lemma read_loop_events (n : nat) (i offset cmd_sz : Z) (w : world) :
  exists evs,
    trace (snd (read_loop n i offset cmd_sz w)) = trace w ++ evs /\
    if fst (read_loop n i offset cmd_sz w)
    then forallb quiet evs = true
    else exists before calc crc,
        evs = before ++ [Dbprintf crc_mismatch_fmt [calc; crc];
                         cmd_send CMD_ACK 0 0 0 []]
        /\ forallb quiet before = true.
Proof.
  revert i w; induction n as [|n IH]; intros i w.
  - exists []. cbn [read_loop fst snd]. now rewrite app_nil_r.
  - cbn [read_loop].
    pose proof (read_byte_eq (uint16 (offset + i)) cmd_sz w) as E.
    cbv zeta in E. rewrite E. clear E.
    set (cmd := uint16 (Z.lor (Z.shiftl (uint16 (offset + i)) 1) LEGIC_READ)).
    set (width := Z.to_nat cmd_sz).
    pose proof (response_data_range width w) as Hd.
    set (sent := frame_on_wire
                   (xor_bits (frame_bits cmd width)
                             (keystream_bits (lfsr w) width))).
    set (logs := rx_logs (input_threshold w) (ssc_pos w) 12).
    assert (Hq : forallb quiet
                   (sent ++
                    FpgaWriteConfWord
                      FPGA_MAJOR_MODE_HF_READER_RX_XCORR_848_KHZ_QUARTER
                      :: logs) = true).
    { rewrite forallb_app. unfold sent, logs.
      rewrite quiet_frame_on_wire. cbn [forallb andb].
      now rewrite quiet_rx_logs. }
    destruct (calc_crc4 cmd cmd_sz (response_data width w)
              =? response_crc width w).
    + destruct (Z.eqb_spec (response_data width w) (-1)) as [Habs|_]; [lia|].
      match goal with
      | |- context [read_loop n (i + 1) offset cmd_sz ?w1] =>
          destruct (IH (i + 1) w1) as [evs [Htr Hrest]];
          rewrite trace_store in Htr
      end.
      eexists. split.
      * rewrite Htr. unfold after. cbn [trace].
        rewrite <- !app_assoc. reflexivity.
      * match goal with
        | |- if fst ?r then _ else _ => destruct (fst r)
        end.
        -- change ([] ++ evs) with evs.
           now rewrite app_assoc, forallb_app, Hq, Hrest.
        -- destruct Hrest as [before [calc [crc [-> Hb]]]].
           exists ((sent ++
                    FpgaWriteConfWord
                      FPGA_MAJOR_MODE_HF_READER_RX_XCORR_848_KHZ_QUARTER
                      :: logs) ++ before), calc, crc.
           split.
           ++ change ([] ++ before ++ ?x) with (before ++ x).
              now rewrite <- !app_assoc.
           ++ now rewrite forallb_app, Hq, Hb.
    + cbn [Z.eqb Pos.eqb fst snd]. eexists. split.
      * rewrite emit_eq, after_after. unfold after. cbn [trace].
        reflexivity.
      * exists (sent ++
                FpgaWriteConfWord
                  FPGA_MAJOR_MODE_HF_READER_RX_XCORR_848_KHZ_QUARTER
                  :: logs).
        do 2 eexists. split; [|exact Hq].
        rewrite <- !app_assoc. reflexivity.
Qed.

Lemma quiet_setup (iv : Z) (th : Z) (pos : nat) (ct : Z) :
  forallb quiet
    ([GetCountUS]
     ++ frame_on_wire
          (xor_bits (frame_bits iv 7) (keystream_bits (legic_prng_init 0) 7))
     ++ [GetCountUS; WaitUntil TAG_FRAME_WAIT]
     ++ (FpgaWriteConfWord FPGA_MAJOR_MODE_HF_READER_RX_XCORR_848_KHZ_QUARTER
           :: rx_logs th pos 6)
     ++ (if ct =? 0x0D then ack_on_wire iv 0x19
         else if (ct =? 0x1D) || (ct =? 0x3D) then ack_on_wire iv 0x39
              else [])) = true.
Proof.
  rewrite !forallb_app, quiet_frame_on_wire.
  cbn [forallb quiet is_cmd_send is_crc_mismatch negb andb].
  rewrite quiet_rx_logs. unfold ack_on_wire.
  destruct (ct =? 0x0D); [|destruct ((ct =? 0x1D) || (ct =? 0x3D))];
    rewrite ?quiet_frame_on_wire; reflexivity.
Qed.

(** The three ways a bulk read ends, as the trace shows them: the card type
    is not supported; every byte was read; one byte failed its CRC.  In each
    the calls that precede the closing ones are quiet. *)
Lemma LegicRfReader_events (offset len iv : Z) (w : world) :
  exists before,
    forallb quiet before = true /\
    (appended w (LegicRfReader offset len iv w)
     = before ++ [cmd_send CMD_ACK 0 0 0 []; switch_off]
     \/ (exists n data,
            appended w (LegicRfReader offset len iv w)
            = before ++ [cmd_send CMD_ACK 1 n 0 data; switch_off])
     \/ (exists calc crc,
            appended w (LegicRfReader offset len iv w)
            = before ++ [Dbprintf crc_mismatch_fmt [calc; crc];
                         cmd_send CMD_ACK 0 0 0 []; switch_off])).
Proof.
  destruct w as [th p pos mem c tr].
  unfold LegicRfReader. rewrite init_reader_eq.
  cbn [input_threshold lfsr ssc_pos legic_mem card trace].
  pose proof (setup_phase_reader_eq iv
                (mk_world th p pos (repeat 0 (Z.to_nat LEGIC_CARD_MEMSIZE)) c
                          (tr ++ init_reader_calls))) as E.
  cbv zeta in E. cbn [input_threshold lfsr ssc_pos legic_mem card trace] in E.
  rewrite E. clear E.
  set (ct := int32 (accumulate (type_bits iv pos) 0 0)).
  pose proof (quiet_setup iv (calibrated_threshold pos)
                (2 * S charge_samples + pos) ct) as Hsetup.
  set (setup := [GetCountUS] ++ _) in *.
  assert (Hinit : forallb quiet init_reader_calls = true) by reflexivity.
  cbn [card].
  destruct (init_card (uint8 (uint32 ct)) c) as [rc c'].
  world_step.
  destruct (rc =? 0); cbn [negb].
  - match goal with
    | |- context [read_loop ?n ?i ?o ?sz ?w0] =>
        destruct (read_loop_events n i o sz w0) as [evs [Htr Hcase]];
        destruct (read_loop n i o sz w0) as [ok w2]
    end.
    cbn [fst snd trace] in Htr, Hcase.
    destruct w2 as [th2 p2 pos2 mem2 c2 tr2]. cbn [trace] in Htr. subst tr2.
    destruct ok.
    + do 2 world_step.
      exists (init_reader_calls ++ setup ++ evs). split.
      * now rewrite !forallb_app, Hinit, Hsetup, Hcase.
      * right. left. do 2 eexists.
        apply appended_app. cbn [trace]. rewrite <- !app_assoc. reflexivity.
    + world_step. destruct Hcase as [before [calc [crc [-> Hb]]]].
      exists (init_reader_calls ++ setup ++ before). split.
      * now rewrite !forallb_app, Hinit, Hsetup, Hb.
      * right. right. exists calc, crc.
        apply appended_app. cbn [trace]. rewrite <- !app_assoc. reflexivity.
  - do 2 world_step.
    exists (init_reader_calls ++ setup). split.
    + now rewrite forallb_app, Hinit, Hsetup.
    + left. apply appended_app. cbn [trace]. rewrite <- !app_assoc.
      reflexivity.
Qed.

(** C9: when a byte fails its CRC during a bulk read, the mismatch print is
    followed at once by the zero-length failure [cmd_send] and by
    [switch_off], and nothing else: no further frame goes out, the mismatch
    is the only one of the operation, and that [cmd_send], with empty
    payload, is all the host sees; the bytes read before it are not
    reported. *)
Theorem C9_bulk_read_crc_failure (offset len iv : Z) (w : world) :
  let evs := appended w (LegicRfReader offset len iv w) in
  existsb is_crc_mismatch evs = true ->
  host_view evs = [cmd_send CMD_ACK 0 0 0 []] /\
  exists before calc crc,
    evs = before ++ [Dbprintf crc_mismatch_fmt [calc; crc];
                     cmd_send CMD_ACK 0 0 0 []; switch_off] /\
    existsb is_crc_mismatch before = false /\
    host_view before = [].
Proof.
  cbv zeta. intros Hfail.
  destruct (LegicRfReader_events offset len iv w) as [before [Hq Hcase]].
  destruct (quiet_unseen before Hq) as [Hhost Hnone].
  destruct Hcase as [E|[[n [data E]]|[calc [crc E]]]]; rewrite E in *.
  - rewrite existsb_app, Hnone in Hfail. discriminate.
  - rewrite existsb_app, Hnone in Hfail. discriminate.
  - split.
    + unfold host_view in *. rewrite filter_app, Hhost. reflexivity.
    + exists before, calc, crc. repeat split; assumption.
Qed.


(** * Further properties of the reader code *)

(** ** Amplitude estimate *)

Lemma max_plus_half_min (hi lo : Z) :
  0 <= lo <= hi ->
  hi <= hi + lo / 2 /\
  4 * ((hi + lo / 2) * (hi + lo / 2)) <= 5 * (hi * hi + lo * lo) /\
  hi * hi + lo * lo < (hi + lo / 2 + 1) * (hi + lo / 2 + 1).
Proof.
  intros H.
  pose proof (Z_div_mod_eq_full lo 2) as D.
  pose proof (Z.mod_pos_bound lo 2 eq_refl) as M.
  set (h := lo / 2) in *. set (r := lo mod 2) in *. clearbody h r.
  assert (Hh : 0 <= h) by lia.
  assert (H1 : 8 * hi * h <= 4 * lo * hi) by nia.
  assert (H2 : 4 * (h * h) <= lo * lo) by nia.
  pose proof (Z.square_nonneg (hi - 2 * lo)) as H3.
  assert (H4 : lo * lo <= 2 * hi * (h + 1)) by nia.
  repeat split; nia.
Qed.

(** X1: [sample_power] takes two bytes off the stream and nothing else, and
    its result approximates the magnitude of the I/Q pair from both sides:
    it is at least the larger of [|i|] and [|q|], at most 192, its square is
    at most 5/4 of [i^2 + q^2], and the magnitude stays below the result
    plus one. *)
Theorem X1_sample_power_approximation (w : world) :
  let q := int8 (uint8 (ssc_rhr (ssc_pos w))) in
  let i := int8 (uint8 (ssc_rhr (S (ssc_pos w)))) in
  let p := fst (sample_power w) in
  snd (sample_power w) = set_ssc_pos (2 + ssc_pos w) w /\
  Z.max (Z.abs i) (Z.abs q) <= p <= 192 /\
  4 * (p * p) <= 5 * (i * i + q * q) /\
  i * i + q * q < (p + 1) * (p + 1).
Proof.
  cbv zeta. rewrite sample_power_eq. cbn [fst snd].
  split; [reflexivity|].
  pose proof (power_at_range (ssc_pos w)) as Hr.
  unfold power_at in *.
  pose proof (int8_uint8_range (ssc_rhr (ssc_pos w))) as Hq.
  pose proof (int8_uint8_range (ssc_rhr (S (ssc_pos w)))) as Hi.
  set (q := int8 (uint8 (ssc_rhr (ssc_pos w)))) in *.
  set (i := int8 (uint8 (ssc_rhr (S (ssc_pos w))))) in *.
  clearbody q i.
  assert (Eq : ABS q = Z.abs q) by (unfold ABS; destruct (Z.ltb_spec q 0); lia).
  assert (Ei : ABS i = Z.abs i) by (unfold ABS; destruct (Z.ltb_spec i 0); lia).
  rewrite Eq, Ei in *.
  assert (Hqq : q * q = Z.abs q * Z.abs q) by lia.
  assert (Hii : i * i = Z.abs i * Z.abs i) by lia.
  rewrite Hqq, Hii.
  assert (Ha : 0 <= Z.abs q) by lia. assert (Hb : 0 <= Z.abs i) by lia.
  set (a := Z.abs q) in *. set (b := Z.abs i) in *. clearbody a b.
  rewrite Z.shiftr_div_pow2 in * by lia. change (2 ^ 1) with 2 in *.
  unfold MAX, MIN in *.
  destruct (Z.gtb_spec b a), (Z.ltb_spec b a); try lia.
  - destruct (max_plus_half_min b a) as (H1 & H2 & H3); [lia|].
    repeat split; lia.
  - destruct (max_plus_half_min a b) as (H1 & H2 & H3); [lia|].
    repeat split; lia.
  - assert (E : b = a) by lia. rewrite E in *.
    destruct (max_plus_half_min a a) as (H1 & H2 & H3); [lia|].
    repeat split; lia.
Qed.

(** ** Frames: what goes on the wire and what comes back *)

Lemma frame_bits_from_ext (a b i : Z) (n : nat) :
  (forall j, i <= j < i + Z.of_nat n -> Z.testbit a j = Z.testbit b j) ->
  frame_bits_from a i n = frame_bits_from b i n.
Proof.
  revert i; induction n as [|n IH]; intros i H; [reflexivity|].
  cbn [frame_bits_from]. rewrite Nat2Z.inj_succ in H. f_equal.
  - apply H. lia.
  - apply IH. intros j Hj. apply H. lia.
Qed.

(** X2: [tx_frame] sends the low [len] bits of its frame value and nothing
    of the rest: two values that agree modulo [2 ^ len] lead to the same
    world, trace included. *)
Theorem X2_tx_frame_low_bits_only (frame frame' len : Z) (w : world) :
  0 <= len ->
  frame mod 2 ^ len = frame' mod 2 ^ len ->
  tx_frame frame len w = tx_frame frame' len w.
Proof.
  intros Hlen Hmod. rewrite !tx_frame_eq. f_equal. f_equal. f_equal.
  unfold frame_bits. apply frame_bits_from_ext. intros j Hj.
  rewrite Z2Nat.id in Hj by lia.
  rewrite <- (Z.mod_pow2_bits_low frame len j) by lia.
  rewrite <- (Z.mod_pow2_bits_low frame' len j) by lia.
  now rewrite Hmod.
Qed.

(** X3: for a length of at most 32 bits, [rx_frame] returns a value below
    [2 ^ len]; it takes exactly ten bytes per bit off the stream and leaves
    the threshold, the memory image and the card record as they were. *)
Theorem X3_rx_frame_range (len : Z) (w : world) :
  0 <= len <= 32 ->
  let w' := snd (rx_frame len w) in
  0 <= fst (rx_frame len w) < 2 ^ len /\
  ssc_pos w' = (10 * Z.to_nat len + ssc_pos w)%nat /\
  input_threshold w' = input_threshold w /\
  legic_mem w' = legic_mem w /\
  card w' = card w.
Proof.
  intros Hlen. cbv zeta. rewrite rx_frame_eq. cbn [fst snd].
  split; [|repeat split].
  set (bits := xor_bits _ _).
  assert (Hl : length bits = Z.to_nat len).
  { unfold bits. rewrite xor_bits_length; rewrite demod_bits_length;
      [reflexivity|]. now rewrite keystream_bits_length. }
  rewrite accumulate_value by (rewrite ?Hl; simpl; lia).
  change (2 ^ 0) with 1. rewrite Z.add_0_l, Z.mul_1_l.
  pose proof (bits_value_range bits) as R.
  rewrite Hl, Z2Nat.id in R by lia. exact R.
Qed.

Lemma presents_silence (th : Z) (pos n : nat) :
  presents th pos (repeat false n) = true ->
  demod_bits th pos n = repeat false n /\ rx_logs th pos n = [].
Proof.
  revert pos; induction n as [|n IH]; intros pos H; [split; reflexivity|].
  cbn [repeat presents] in H. apply andb_prop in H. destruct H as [Hb Hrest].
  destruct (IH _ Hrest) as [Hd Hl].
  cbn [demod_bits rx_logs repeat]. rewrite Hd, Hl, Hb, orb_true_r.
  split; [|reflexivity]. f_equal.
  unfold both_above, both_below in *.
  apply andb_prop in Hb. destruct Hb as [H2 _].
  destruct (Z.ltb_spec (fst (decision_pair pos)) th); [|discriminate].
  destruct (Z.gtb_spec (fst (decision_pair pos)) th); [lia|reflexivity].
Qed.

Lemma xor_bits_false_l (k : list bool) :
  xor_bits (repeat false (length k)) k = k.
Proof.
  induction k as [|b k IH]; [reflexivity|].
  unfold xor_bits in *. cbn [length repeat combine map fst snd].
  now rewrite IH.
Qed.

(** X4: silence cannot be told from a card that sends zeros.  When both
    decision samples of every bit period lie under the threshold,
    [rx_frame] prints nothing and returns the value of the keystream bits
    alone. *)
Theorem X4_rx_frame_silence (len : Z) (w : world) :
  0 <= len <= 32 ->
  presents (input_threshold w) (ssc_pos w) (repeat false (Z.to_nat len))
    = true ->
  fst (rx_frame len w) = bits_value (keystream_bits (lfsr w) (Z.to_nat len))
  /\ appended w (snd (rx_frame len w))
     = [FpgaWriteConfWord FPGA_MAJOR_MODE_HF_READER_RX_XCORR_848_KHZ_QUARTER].
Proof.
  intros Hlen Hs. rewrite rx_frame_eq. cbn [fst snd].
  destruct (presents_silence _ _ _ Hs) as [Hd Hl]. rewrite Hd, Hl.
  split.
  - rewrite <- (keystream_bits_length (lfsr w) (Z.to_nat len)) at 1.
    rewrite xor_bits_false_l.
    rewrite accumulate_value
      by (rewrite ?keystream_bits_length; simpl; lia).
    change (2 ^ 0) with 1. lia.
  - apply appended_app. reflexivity.
Qed.

(** ** Threshold *)

Lemma fold_left_max_range (l : list Z) (t lo hi : Z) :
  lo <= t <= hi -> (forall s, In s l -> s <= hi) ->
  lo <= fold_left Z.max l t <= hi.
Proof.
  revert t; induction l as [|a l IH]; intros t Ht H; [exact Ht|].
  cbn [fold_left]. apply IH.
  - assert (a <= hi) by (apply H; now left). lia.
  - intros s Hs. apply H. now right.
Qed.

Lemma calibrated_threshold_range (pos : nat) :
  16 <= calibrated_threshold pos <= 384 /\
  calibrated_threshold pos mod 2 = 0.
Proof.
  unfold calibrated_threshold.
  assert (R : 8 <= fold_left Z.max (observed pos (S charge_samples)) 8 <= 192).
  { apply fold_left_max_range; [lia|].
    intros s Hs. apply observed_range in Hs. lia. }
  set (m := fold_left Z.max (observed pos (S charge_samples)) 8) in *.
  rewrite Z.shiftl_mul_pow2 by lia. change (2 ^ 1) with 2.
  assert (E : int32 (m * 2) = m * 2).
  { unfold int32, uint32.
    rewrite Z.mod_small by (change (2 ^ 32) with 4294967296; lia).
    destruct (Z.ltb_spec (m * 2) (2 ^ 31)) as [_|H]; [reflexivity|].
    change (2 ^ 31) with 2147483648 in H. lia. }
  rewrite E. split; [lia|]. apply Z.mod_mul. lia.
Qed.

(** X5: whatever the front-end delivers, the threshold in force after
    [setup_phase_reader] is an even number between 16 and 384, and the card
    type it returns is below 64. *)
Theorem X5_setup_threshold_and_type_range (iv : Z) (w : world) :
  let th := input_threshold (snd (setup_phase_reader iv w)) in
  16 <= th <= 384 /\ th mod 2 = 0 /\
  0 <= fst (setup_phase_reader iv w) < 64.
Proof.
  cbv zeta. pose proof (setup_phase_reader_eq iv w) as E. cbv zeta in E.
  rewrite E. cbn [fst snd input_threshold].
  destruct (calibrated_threshold_range (ssc_pos w)) as [R P].
  destruct (card_type_value iv (ssc_pos w)) as [Hct Hr].
  rewrite Hct. unfold uint32.
  rewrite (Z.mod_small _ (2 ^ 32))
    by (change (2 ^ 32) with 4294967296; lia).
  repeat split; lia.
Qed.

Lemma blind_demod_bits (th : Z) (pos n : nat) :
  192 <= th -> demod_bits th pos n = repeat false n.
Proof.
  intros Hth. revert pos; induction n as [|n IH]; intros pos; [reflexivity|].
  cbn [demod_bits repeat]. rewrite IH. f_equal.
  unfold both_above, decision_pair. cbn [fst snd].
  pose proof (power_at_range (4 + pos)) as R.
  destruct (Z.gtb_spec (power_at (4 + pos)) th); [lia|reflexivity].
Qed.

(** X6: no power sample exceeds 192, so with a threshold of 192 or more
    [rx_bit] never returns 1. *)
Theorem X6_rx_bit_blind_above_192 (w : world) :
  192 <= input_threshold w -> fst (rx_bit w) = false.
Proof.
  intros Hth. rewrite rx_bit_eq. cbn [fst].
  pose proof (blind_demod_bits (input_threshold w) (ssc_pos w) 1 Hth) as H.
  cbn [demod_bits repeat] in H. now injection H.
Qed.

(** X7: a power sample of 96 or more during the calibration puts the
    threshold at 192 or more; the card type that [setup_phase_reader] then
    returns owes nothing to the card: it is the value of the six keystream
    bits from position 2 of the IV's sequence. *)
Theorem X7_setup_blinded_by_strong_calibration (iv : Z) (w : world) (s : Z) :
  In s (observed (ssc_pos w) (S charge_samples)) -> 96 <= s ->
  192 <= input_threshold (snd (setup_phase_reader iv w)) /\
  fst (setup_phase_reader iv w)
  = bits_value (keystream_bits (legic_prng_forward 2 (legic_prng_init iv)) 6).
Proof.
  intros Hin Hs.
  pose proof (setup_phase_reader_eq iv w) as E. cbv zeta in E.
  rewrite E. cbn [fst snd input_threshold]. clear E.
  assert (Hth : 192 <= calibrated_threshold (ssc_pos w)).
  { unfold calibrated_threshold.
    assert (R : s <= fold_left Z.max (observed (ssc_pos w) (S charge_samples))
                       8 <= 192).
    { assert (G : forall l t, In s l ->
                    s <= fold_left Z.max l t).
      { induction l as [|a l IH]; intros t H; [contradiction|].
        cbn [fold_left]. destruct H as [->|H]; [|now apply IH].
        assert (F : forall l t, t <= fold_left Z.max l t).
        { clear. induction l as [|a l IH]; intros t; cbn [fold_left]; [lia|].
          specialize (IH (Z.max t a)). lia. }
        specialize (F l (Z.max t s)). lia. }
      split; [now apply G|].
      apply (fold_left_max_range _ 8 8 192); [lia|].
      intros x Hx. apply observed_range in Hx. lia. }
    set (m := fold_left Z.max (observed (ssc_pos w) (S charge_samples)) 8)
      in *.
    rewrite Z.shiftl_mul_pow2 by lia. change (2 ^ 1) with 2.
    unfold int32, uint32.
    rewrite Z.mod_small by (change (2 ^ 32) with 4294967296; lia).
    destruct (Z.ltb_spec (m * 2) (2 ^ 31)) as [_|H]; [lia|].
    change (2 ^ 31) with 2147483648 in H. lia. }
  split; [assumption|].
  destruct (card_type_value iv (ssc_pos w)) as [Hct Hr].
  rewrite Hct. unfold uint32.
  rewrite Z.mod_small by (change (2 ^ 32) with 4294967296; lia).
  unfold type_bits. rewrite blind_demod_bits by assumption.
  rewrite <- (keystream_bits_length
                (legic_prng_forward 2 (legic_prng_init iv)) 6) at 1.
  now rewrite xor_bits_false_l.
Qed.

(** ** Card geometry and command words *)

(** X8: whenever [init_card] succeeds, the record it leaves is coherent: the
    tag type is one of the three of the table and is stored as given, the
    UID is untouched, the command is one bit wider than the address, every
    address of the card fits the address field, and the card fits the
    memory image. *)
Theorem X8_init_card_success_geometry
  (cardtype : Z) (p_card : legic_card_select_t) :
  fst (init_card cardtype p_card) = 0 ->
  let c := snd (init_card cardtype p_card) in
  (cardtype = 0x0d \/ cardtype = 0x1d \/ cardtype = 0x3d) /\
  tagtype c = cardtype /\ uid c = uid p_card /\
  cmdsize c = addrsize c + 1 /\
  0 < cardsize c <= 2 ^ addrsize c /\
  cardsize c <= LEGIC_CARD_MEMSIZE.
Proof.
  cbv zeta. unfold init_card. cbn [tagtype].
  destruct (Z.eqb_spec cardtype 0x0d) as [->|_].
  { intros _. split; [now left|]. cbv. repeat split; discriminate. }
  destruct (Z.eqb_spec cardtype 0x1d) as [->|_].
  { intros _. split; [right; now left|]. cbv. repeat split; discriminate. }
  destruct (Z.eqb_spec cardtype 0x3d) as [->|_].
  { intros _. split; [right; now right|]. cbv. repeat split; discriminate. }
  cbn [fst]. discriminate.
Qed.

Lemma lor_shifted_above (hi lo k : Z) :
  0 <= k -> 0 <= hi -> 0 <= lo < 2 ^ k ->
  Z.lor (Z.shiftl hi k) lo = hi * 2 ^ k + lo.
Proof.
  intros Hk Hhi Hlo.
  rewrite <- Z.shiftl_mul_pow2 by lia.
  rewrite <- Z.lxor_lor, <- Z.add_nocarry_lxor; try reflexivity.
  all: apply Z.bits_inj'; intros j Hj;
    rewrite Z.land_spec, Z.bits_0;
    destruct (Z.lt_ge_cases j k) as [Hlt|Hge].
  1,3: rewrite (Z.shiftl_spec_low _ _ _ Hlt); reflexivity.
  all: replace (Z.testbit lo j) with false; [apply andb_false_r|];
    symmetry; destruct (Z.eq_dec lo 0) as [->|Hnz];
    [apply Z.bits_0|];
    apply Z.bits_above_log2; [lia|];
    apply Z.log2_lt_pow2; [lia|];
    apply Z.lt_le_trans with (2 ^ k); [lia|];
    apply Z.pow_le_mono_r; lia.
Qed.

(** X9: for an address that fits the address field (one bit less than the
    command width) and a one-bit read opcode, the command word of
    [read_byte] is [2 * index + LEGIC_READ], it fits the command width, and
    the word handed to the CRC is the data byte set exactly above the
    command: [value * 2 ^ cmd_sz + cmd]. *)
Theorem X9_read_command_and_crc_word (index cmd_sz value : Z) :
  1 <= cmd_sz <= 16 ->
  0 <= index < 2 ^ (cmd_sz - 1) ->
  0 <= LEGIC_READ <= 1 ->
  0 <= value < 256 ->
  let cmd := uint16 (Z.lor (Z.shiftl index 1) LEGIC_READ) in
  cmd = 2 * index + LEGIC_READ /\
  0 <= cmd < 2 ^ cmd_sz /\
  calc_crc4 cmd cmd_sz value
  = uint8 (crc4 (value * 2 ^ cmd_sz + cmd) (8 + cmd_sz)).
Proof.
  intros Hsz Hidx Hop Hval. cbv zeta.
  assert (Hp : 2 ^ cmd_sz = 2 * 2 ^ (cmd_sz - 1)).
  { rewrite <- Z.pow_succ_r by lia. f_equal. lia. }
  assert (Hp16 : 2 ^ cmd_sz <= 2 ^ 16) by (apply Z.pow_le_mono_r; lia).
  assert (Hp0 : 0 < 2 ^ (cmd_sz - 1)) by (apply Z.pow_pos_nonneg; lia).
  rewrite (lor_shifted_above index LEGIC_READ 1)
    by (try lia; change (2 ^ 1) with 2; lia).
  change (2 ^ 1) with 2.
  assert (Hcmd : 0 <= index * 2 + LEGIC_READ < 2 ^ cmd_sz) by lia.
  unfold uint16. rewrite Z.mod_small by lia.
  split; [lia|]. split; [lia|].
  unfold calc_crc4.
  rewrite lor_shifted_above by lia.
  unfold uint32. rewrite Z.mod_small; [reflexivity|].
  change (2 ^ 16) with 65536 in Hp16. change (2 ^ 32) with 4294967296.
  nia.
Qed.

(** ** Length guard of the bulk read *)

(** X10: for an offset inside the card the guard of [LegicRfReader] keeps
    the smaller of the requested length and the distance to the end of the
    card; a request that fits is left alone and the last byte kept is never
    past the card. *)
Theorem X10_clamp_len_offset_inside (offset len size : Z) :
  0 <= offset <= size -> size < 2 ^ 16 -> 0 <= len ->
  clamp_len offset len size = Z.min len (size - offset) /\
  offset + clamp_len offset len size <= size /\
  (len + offset <= size -> clamp_len offset len size = len).
Proof.
  intros Ho Hs Hl. unfold clamp_len, uint16.
  destruct (Z.gtb_spec (len + offset) size).
  - rewrite Z.mod_small by lia. lia.
  - lia.
Qed.

(** X11: for an offset beyond the card the difference computed by the guard
    is negative and wraps in the 16-bit length: the length kept is
    [2 ^ 16 - (offset - size)], at least one byte, whatever the length
    asked for, and the range it designates ends past the card. *)
Theorem X11_clamp_len_offset_beyond (offset len size : Z) :
  0 <= size < offset -> offset < 2 ^ 16 -> 0 <= len ->
  clamp_len offset len size = 2 ^ 16 - (offset - size) /\
  1 <= clamp_len offset len size /\
  size < offset + clamp_len offset len size.
Proof.
  intros Ho Hs Hl. unfold clamp_len, uint16.
  destruct (Z.gtb_spec (len + offset) size); [|lia].
  replace (size - offset) with ((2 ^ 16 - (offset - size)) + (-1) * 2 ^ 16)
    by ring.
  rewrite Z.mod_add by (change (2 ^ 16) with 65536; lia).
  rewrite Z.mod_small by lia. lia.
Qed.

(** ** Bulk read: outcomes *)

Lemma response_data_ext (width : nat) (w w' : world) :
  input_threshold w = input_threshold w' -> ssc_pos w = ssc_pos w' ->
  lfsr w = lfsr w' ->
  response_data width w = response_data width w'.
Proof.
  intros H1 H2 H3. unfold response_data, response_bits.
  now rewrite H1, H2, H3.
Qed.

Lemma store_at_length (i : nat) (v : Z) (m : list Z) :
  (i < length m)%nat -> length (store_at i v m) = length m.
Proof.
  revert i; induction m as [|x m IH]; intros [|i] H; cbn [length] in H;
    try lia; cbn [store_at length]; [reflexivity|].
  rewrite IH by lia. reflexivity.
Qed.

Lemma store_at_split (i : nat) (v : Z) (m : list Z) :
  (i < length m)%nat ->
  store_at i v m = firstn i m ++ v :: skipn (S i) m.
Proof.
  revert i; induction m as [|x m IH]; intros [|i] H; cbn [length] in H;
    try lia; cbn [store_at firstn skipn app]; [reflexivity|].
  f_equal. apply IH. lia.
Qed.



Lemma init_card_known (cardtype : Z) (p_card : legic_card_select_t) :
  (fst (init_card cardtype p_card) =? 0)
  = (cardtype =? 0x0D) || (cardtype =? 0x1D) || (cardtype =? 0x3D).
Proof.
  unfold init_card. cbn [tagtype].
  destruct (cardtype =? 0x0d); [reflexivity|].
  destruct (cardtype =? 0x1d); [reflexivity|].
  destruct (cardtype =? 0x3d); reflexivity.
Qed.

Lemma init_card_tagtype (cardtype : Z) (p_card : legic_card_select_t) :
  tagtype (snd (init_card cardtype p_card)) = cardtype /\
  uid (snd (init_card cardtype p_card)) = uid p_card.
Proof.
  unfold init_card. cbn [tagtype].
  destruct (cardtype =? 0x0d); [split; reflexivity|].
  destruct (cardtype =? 0x1d); [split; reflexivity|].
  destruct (cardtype =? 0x3d); split; reflexivity.
Qed.


Lemma operation_prologue (iv : Z) (w : world) :
  let r := setup_phase_reader iv (init_reader false w) in
  init_card (uint8 (fst r)) (card (snd r))
  = init_card (bits_value (type_bits iv (ssc_pos w))) (card w)
  /\ set_card (snd (init_card (uint8 (fst r)) (card (snd r)))) (snd r)
     = after_setup iv w.
Proof.
  cbv zeta. destruct w as [th p pos mem c tr].
  rewrite init_reader_eq.
  cbn [input_threshold lfsr ssc_pos legic_mem card trace].
  pose proof (setup_phase_reader_eq iv
                (mk_world th p pos (repeat 0 (Z.to_nat LEGIC_CARD_MEMSIZE)) c
                          (tr ++ init_reader_calls))) as E.
  cbv zeta in E. cbn [input_threshold lfsr ssc_pos legic_mem card trace] in E.
  rewrite E. clear E.
  destruct (card_type_value iv pos) as [Hct Hr]. rewrite Hct.
  cbn [fst snd card].
  assert (Hu : uint8 (uint32 (bits_value (type_bits iv pos)))
               = bits_value (type_bits iv pos)).
  { unfold uint8, uint32.
    rewrite (Z.mod_small _ (2 ^ 32))
      by (change (2 ^ 32) with 4294967296; lia).
    apply Z.mod_small. change (2 ^ 8) with 256. lia. }
  rewrite Hu. split; [reflexivity|].
  rewrite set_card_mk. unfold after_setup, setup_calls.
  cbn [input_threshold lfsr ssc_pos legic_mem card trace].
  rewrite <- !app_assoc. reflexivity.
Qed.



Lemma quiet_setup_calls (iv : Z) (pos : nat) :
  forallb quiet (init_reader_calls ++ setup_calls iv pos) = true.
Proof.
  rewrite forallb_app. unfold setup_calls. cbv zeta.
  now rewrite quiet_setup.
Qed.

Lemma host_view_closing (before : list event) (e : event) :
  forallb quiet before = true -> is_cmd_send e = true ->
  host_view (before ++ [e; switch_off]) = [e].
Proof.
  intros Hq He. destruct (quiet_unseen before Hq) as [Hh _].
  unfold host_view in *. rewrite filter_app, Hh. cbn [filter app].
  now rewrite He.
Qed.



Lemma wire_bits_app (a b : list event) :
  wire_bits (a ++ b) = wire_bits a ++ wire_bits b.
Proof. apply flat_map_app. Qed.

Lemma wire_bits_rx_logs (th : Z) (pos n : nat) :
  wire_bits (rx_logs th pos n) = [].
Proof.
  revert pos; induction n as [|n IH]; intros pos; [reflexivity|].
  cbn [rx_logs]. rewrite wire_bits_app, IH, app_nil_r.
  now destruct (both_above th pos || both_below th pos).
Qed.

Lemma wire_bits_setup_calls (iv : Z) (pos : nat) :
  let card_type := bits_value (type_bits iv pos) in
  wire_bits (init_reader_calls ++ setup_calls iv pos)
  = xor_bits (frame_bits iv 7) (keystream_bits (legic_prng_init 0) 7)
    ++ (if (card_type =? 0x0D) || (card_type =? 0x1D) || (card_type =? 0x3D)
        then xor_bits
               (frame_bits (if card_type =? 0x0D then 0x19 else 0x39) 6)
               (keystream_bits
                  (legic_prng_forward 8 (legic_prng_init iv)) 6)
        else []).
Proof.
  cbv zeta. unfold setup_calls. cbv zeta.
  rewrite !wire_bits_app, wire_bits_frame_on_wire.
  change (wire_bits init_reader_calls) with (@nil bool).
  change (wire_bits [GetCountUS]) with (@nil bool).
  change (wire_bits [GetCountUS; WaitUntil TAG_FRAME_WAIT]) with (@nil bool).
  change (wire_bits (?e :: rx_logs ?t ?p ?n))
    with (wire_bit e ++ wire_bits (rx_logs t p n)).
  rewrite wire_bits_rx_logs. cbn [wire_bit app]. f_equal.
  unfold ack_on_wire.
  destruct (bits_value (type_bits iv pos) =? 0x0D); cbn [orb];
    [now rewrite wire_bits_frame_on_wire|].
  destruct ((bits_value (type_bits iv pos) =? 0x1D)
            || (bits_value (type_bits iv pos) =? 0x3D));
    [now rewrite wire_bits_frame_on_wire|reflexivity].
Qed.

Lemma wire_bits_read_events (cmd : Z) (width : nat) (w : world) :
  wire_bits
    (frame_on_wire
       (xor_bits (frame_bits cmd width) (keystream_bits (lfsr w) width))
     ++ (FpgaWriteConfWord FPGA_MAJOR_MODE_HF_READER_RX_XCORR_848_KHZ_QUARTER
           :: rx_logs (input_threshold w) (ssc_pos w) 12)
     ++ [])
  = xor_bits (frame_bits cmd width) (keystream_bits (lfsr w) width).
Proof.
  rewrite app_nil_r.
  unfold wire_bits. rewrite flat_map_app. cbn [flat_map wire_bit app].
  fold (wire_bits (frame_on_wire
          (xor_bits (frame_bits cmd width) (keystream_bits (lfsr w) width)))).
  fold (wire_bits (rx_logs (input_threshold w) (ssc_pos w) 12)).
  now rewrite wire_bits_frame_on_wire, wire_bits_rx_logs, app_nil_r.
Qed.





(** X15: every bulk read, whatever its arguments and whatever the card
    does, reports to the host exactly once, by the [cmd_send] that comes
    last but one, and ends with [switch_off]; a failure report carries
    neither length nor data. *)
Theorem X15_bulk_read_reports_once (offset len iv : Z) (w : world) :
  exists before a n data,
    appended w (LegicRfReader offset len iv w)
    = before ++ [cmd_send CMD_ACK a n 0 data; switch_off] /\
    host_view before = [] /\
    host_view (appended w (LegicRfReader offset len iv w))
    = [cmd_send CMD_ACK a n 0 data] /\
    (a = 1 \/ (a = 0 /\ n = 0 /\ data = [])).
Proof.
  destruct (LegicRfReader_events offset len iv w) as [before [Hq Hcase]].
  destruct (quiet_unseen before Hq) as [Hh _].
  destruct Hcase as [E|[[n [data E]]|[calc [crc E]]]].
  - exists before, 0, 0, []. rewrite E.
    repeat split; try assumption; [|right; repeat split].
    apply host_view_closing; [assumption|reflexivity].
  - exists before, 1, n, data. rewrite E.
    repeat split; try assumption; [|now left].
    apply host_view_closing; [assumption|reflexivity].
  - exists (before ++ [Dbprintf crc_mismatch_fmt [calc; crc]]), 0, 0, [].
    rewrite E, <- !app_assoc. cbn [app].
    unfold host_view in *. rewrite !filter_app, Hh. cbn [filter app].
    repeat split. right. repeat split.
Qed.

(** ** Identification *)

Lemma read_uid_loop_events (n : nat) (i : Z) (w : world) :
  exists evs,
    trace (snd (read_uid_loop n i w)) = trace w ++ evs /\
    if fst (read_uid_loop n i w)
    then forallb quiet evs = true
    else exists before calc crc,
        evs = before ++ [Dbprintf crc_mismatch_fmt [calc; crc];
                         cmd_send CMD_ACK 0 0 0 []]
        /\ forallb quiet before = true.
Proof.
  revert i w; induction n as [|n IH]; intros i w.
  - exists []. cbn [read_uid_loop fst snd]. now rewrite app_nil_r.
  - cbn [read_uid_loop].
    pose proof (read_byte_eq i (cmdsize (card w)) w) as E.
    cbv zeta in E. rewrite E. clear E.
    set (cmd := uint16 (Z.lor (Z.shiftl i 1) LEGIC_READ)).
    set (width := Z.to_nat (cmdsize (card w))).
    pose proof (response_data_range width w) as Hd.
    set (sent := frame_on_wire
                   (xor_bits (frame_bits cmd width)
                             (keystream_bits (lfsr w) width))).
    set (logs := rx_logs (input_threshold w) (ssc_pos w) 12).
    assert (Hq : forallb quiet
                   (sent ++
                    FpgaWriteConfWord
                      FPGA_MAJOR_MODE_HF_READER_RX_XCORR_848_KHZ_QUARTER
                      :: logs) = true).
    { rewrite forallb_app. unfold sent, logs.
      rewrite quiet_frame_on_wire. cbn [forallb andb].
      now rewrite quiet_rx_logs. }
    destruct (calc_crc4 cmd (cmdsize (card w)) (response_data width w)
              =? response_crc width w).
    + destruct (Z.eqb_spec (response_data width w) (-1)) as [Habs|_]; [lia|].
      match goal with
      | |- context [read_uid_loop n (i + 1) ?w1] =>
          destruct (IH (i + 1) w1) as [evs [Htr Hrest]]
      end.
      change (trace (set_card ?c ?x)) with (trace x) in Htr.
      eexists. split.
      * rewrite Htr. unfold after. cbn [trace].
        rewrite <- !app_assoc. reflexivity.
      * match goal with
        | |- if fst ?r then _ else _ => destruct (fst r)
        end.
        -- change ([] ++ evs) with evs.
           now rewrite app_assoc, forallb_app, Hq, Hrest.
        -- destruct Hrest as [before [calc [crc [-> Hb]]]].
           exists ((sent ++
                    FpgaWriteConfWord
                      FPGA_MAJOR_MODE_HF_READER_RX_XCORR_848_KHZ_QUARTER
                      :: logs) ++ before), calc, crc.
           split.
           ++ change ([] ++ before ++ ?x) with (before ++ x).
              now rewrite <- !app_assoc.
           ++ now rewrite forallb_app, Hq, Hb.
    + cbn [Z.eqb Pos.eqb fst snd]. eexists. split.
      * rewrite emit_eq, after_after. unfold after. cbn [trace].
        reflexivity.
      * exists (sent ++
                FpgaWriteConfWord
                  FPGA_MAJOR_MODE_HF_READER_RX_XCORR_848_KHZ_QUARTER
                  :: logs).
        do 2 eexists. split; [|exact Hq].
        rewrite <- !app_assoc. reflexivity.
Qed.

Lemma read_uid_loop_ok (n : nat) (i : Z) (w : world) :
  0 <= i ->
  (Z.to_nat i + n <= length (uid (card w)))%nat ->
  fst (read_uid_loop n i w) = true ->
  let width := Z.to_nat (cmdsize (card w)) in
  let w' := snd (read_uid_loop n i w) in
  card w'
  = set_uid (firstn (Z.to_nat i) (uid (card w))
             ++ map (nth_read_data width w) (seq 0 n)
             ++ skipn (Z.to_nat i + n) (uid (card w)))
            (card w)
  /\ lfsr w' = legic_prng_forward (n * (width + 12)) (lfsr w)
  /\ ssc_pos w' = (120 * n + ssc_pos w)%nat
  /\ input_threshold w' = input_threshold w
  /\ legic_mem w' = legic_mem w.
Proof.
  cbv zeta. revert i w; induction n as [|n IH]; intros i w Hi Hlen Hok.
  - cbn [read_uid_loop snd seq map app]. rewrite Nat.add_0_r, firstn_skipn.
    cbn [Nat.mul]. rewrite forward_0. repeat split. now destruct (card w).
  - cbn [read_uid_loop] in *.
    pose proof (read_byte_eq i (cmdsize (card w)) w) as E.
    cbv zeta in E. rewrite E in *. clear E.
    pose proof (response_data_range (Z.to_nat (cmdsize (card w))) w) as Hd.
    set (width := Z.to_nat (cmdsize (card w))) in *.
    destruct (calc_crc4 _ (cmdsize (card w)) (response_data width w)
              =? response_crc width w); [|discriminate Hok].
    rewrite app_nil_r in *.
    destruct (Z.eqb_spec (response_data width w) (-1)) as [Habs|_]; [lia|].
    assert (Hu : Z.land (response_data width w) 0xFF = response_data width w).
    { change 255 with (Z.ones 8). rewrite Z.land_ones by lia.
      apply Z.mod_small. change (2 ^ 8) with 256. lia. }
    rewrite Hu in *.
    set (evs := frame_on_wire _ ++ _) in *.
    unfold after, set_card in *.
    cbn [input_threshold lfsr ssc_pos legic_mem card trace] in *.
    set (w1 := mk_world _ _ _ _ _ _) in *.
    assert (Hi1 : Z.to_nat (i + 1) = S (Z.to_nat i)) by lia.
    assert (Hw1c : cmdsize (card w1) = cmdsize (card w)) by reflexivity.
    assert (Hlen1 : (Z.to_nat (i + 1) + n <= length (uid (card w1)))%nat).
    { unfold w1. cbn [card set_uid uid]. rewrite store_at_length by lia.
      lia. }
    destruct (IH (i + 1) w1 ltac:(lia) Hlen1 Hok) as (Hm & Hl & Hp & Ht & Hc).
    rewrite Hm, Hl, Hp, Ht, Hc, Hw1c. fold width. unfold w1.
    cbn [input_threshold lfsr ssc_pos legic_mem card trace set_uid uid
         tagtype cmdsize addrsize cardsize].
    split; [|repeat split].
    + unfold set_uid. f_equal.
      rewrite store_at_split by lia.
      rewrite Hi1.
      assert (Hfl : length (firstn (Z.to_nat i) (uid (card w))) = Z.to_nat i)
        by (rewrite length_firstn; lia).
      rewrite <- (Nat.add_0_r (Z.to_nat i)) at 1.
      replace (S (Z.to_nat i + 0)) with (Z.to_nat i + 1)%nat by lia.
      rewrite <- Hfl at 1.
      rewrite firstn_app_2. cbn [firstn].
      rewrite <- app_assoc. f_equal. cbn [app seq map]. f_equal.
      * unfold nth_read_data. apply response_data_ext; cbn [Nat.mul];
          unfold after; cbn [input_threshold ssc_pos lfsr];
          [reflexivity|lia|now rewrite forward_0].
      * f_equal.
        -- rewrite <- seq_shift, map_map. apply map_ext. intros k.
           unfold nth_read_data. apply response_data_ext;
             unfold after; cbn [input_threshold ssc_pos lfsr];
             [reflexivity|lia|].
           rewrite forward_forward. f_equal; lia.
        -- replace (S (Z.to_nat i) + n)%nat
             with (length (firstn (Z.to_nat i) (uid (card w))) + (S n))%nat
             by lia.
           rewrite skipn_app, skipn_all2 by lia.
           rewrite Hfl. replace (Z.to_nat i + S n - Z.to_nat i)%nat
             with (S n) by lia.
           cbn [app]. rewrite skipn_cons, skipn_skipn. f_equal. lia.
    + rewrite forward_forward. f_equal; lia.
    + lia.
Qed.

Lemma read_uid_loop_card_fields (n : nat) (i : Z) (w : world) :
  let c := card (snd (read_uid_loop n i w)) in
  tagtype c = tagtype (card w) /\ cmdsize c = cmdsize (card w) /\
  addrsize c = addrsize (card w) /\ cardsize c = cardsize (card w).
Proof.
  cbv zeta. revert i w; induction n as [|n IH]; intros i w;
    [repeat split|].
  cbn [read_uid_loop].
  pose proof (read_byte_eq i (cmdsize (card w)) w) as E.
  cbv zeta in E. rewrite E. clear E.
  match goal with
  | |- context [if ?b =? -1 then _ else _] => destruct (b =? -1)
  end.
  - repeat split.
  - match goal with
    | |- context [read_uid_loop n (i + 1) ?w1] =>
        destruct (IH (i + 1) w1) as (H1 & H2 & H3 & H4)
    end.
    rewrite H1, H2, H3, H4. repeat split.
Qed.

(** [LegicRfInfo] by cases. *)
Lemma LegicRfInfo_run (w : world) :
  let w0 := after_setup 1 w in
  let loop := read_uid_loop 4 0 w0 in
  let r := read_byte 4 (cmdsize (card (snd loop))) (snd loop) in
  LegicRfInfo w =
  if fst (init_card (bits_value (type_bits 1 (ssc_pos w))) (card w)) =? 0
  then
    if fst loop
    then
      if fst r =? int16 (CRC8Legic (firstn 4 (uid (card (snd r)))))
      then emit switch_off
             (emit (cmd_send CMD_ACK 1 0 0 (card_image (card (snd r))))
                   (snd r))
      else emit switch_off (emit (cmd_send CMD_ACK 0 0 0 []) (snd r))
    else emit switch_off (snd loop)
  else emit switch_off (emit (cmd_send CMD_ACK 0 0 0 []) w0).
Proof.
  cbv zeta. unfold LegicRfInfo.
  destruct (operation_prologue 1 w) as [Hic Hw0]. cbv zeta in Hic, Hw0.
  destruct (setup_phase_reader 1 (init_reader false w)) as [t w1].
  cbn [fst snd] in Hic, Hw0. rewrite Hic in *.
  destruct (init_card (bits_value (type_bits 1 (ssc_pos w))) (card w))
    as [rc c] eqn:Eic.
  cbn [fst snd] in *. rewrite Hw0.
  destruct (rc =? 0); cbn [negb]; [|reflexivity].
  destruct (read_uid_loop 4 0 (after_setup 1 w)) as [ok w2].
  cbn [fst snd]. destruct ok; [|reflexivity].
  destruct (read_byte 4 (cmdsize (card w2)) w2) as [mcc w3].
  cbn [fst snd].
  now destruct (mcc =? int16 (CRC8Legic (firstn 4 (uid (card w3))))).
Qed.

Lemma read_byte_events (index cmd_sz : Z) (w : world) :
  exists evs,
    trace (snd (read_byte index cmd_sz w)) = trace w ++ evs /\
    host_view evs = [] /\
    (fst (read_byte index cmd_sz w) <> -1 -> forallb quiet evs = true).
Proof.
  pose proof (read_byte_eq index cmd_sz w) as E. cbv zeta in E.
  rewrite E. clear E. cbn [fst snd].
  pose proof (response_data_range (Z.to_nat cmd_sz) w) as Hd.
  eexists. split; [unfold after; cbn [trace]; reflexivity|].
  set (sent := frame_on_wire _).
  set (logs := rx_logs _ _ _).
  assert (Hq : forallb quiet
                 (sent ++
                  FpgaWriteConfWord
                    FPGA_MAJOR_MODE_HF_READER_RX_XCORR_848_KHZ_QUARTER
                    :: logs) = true).
  { rewrite forallb_app. unfold sent, logs.
    rewrite quiet_frame_on_wire. cbn [forallb andb].
    now rewrite quiet_rx_logs. }
  destruct (quiet_unseen _ Hq) as [Hh _].
  match goal with
  | |- context [if ?b then _ else _] => destruct b
  end.
  - rewrite app_nil_r. split; [assumption|]. intros _. assumption.
  - split; [|intros H; contradiction].
    rewrite app_assoc. unfold host_view in *.
    rewrite filter_app, Hh. reflexivity.
Qed.

(** X16: every identification, whatever the card does, reports to the host
    exactly once, by the [cmd_send] that comes last but one, and ends with
    [switch_off]; a failure report carries no data. *)
Theorem X16_identify_reports_once (w : world) :
  exists before a data,
    appended w (LegicRfInfo w)
    = before ++ [cmd_send CMD_ACK a 0 0 data; switch_off] /\
    host_view before = [] /\
    host_view (appended w (LegicRfInfo w)) = [cmd_send CMD_ACK a 0 0 data] /\
    (a = 1 \/ (a = 0 /\ data = [])).
Proof.
  pose proof (LegicRfInfo_run w) as E. cbv zeta in E. rewrite E. clear E.
  pose proof (quiet_setup_calls 1 (ssc_pos w)) as Hq.
  destruct (quiet_unseen _ Hq) as [Hh0 _].
  set (w0 := after_setup 1 w) in *.
  set (pro := init_reader_calls ++ setup_calls 1 (ssc_pos w)) in *.
  assert (Htr0 : trace w0 = trace w ++ pro)
    by (unfold pro; reflexivity).
  assert (Hclose : forall pre e,
             host_view pre = [] -> is_cmd_send e = true ->
             host_view (pre ++ [e; switch_off]) = [e]).
  { intros pre e Hp He. unfold host_view in *.
    rewrite filter_app, Hp. cbn [filter app]. now rewrite He. }
  destruct (fst (init_card (bits_value (type_bits 1 (ssc_pos w))) (card w))
            =? 0).
  2: { assert (Heq : appended w
                       (emit switch_off (emit (cmd_send CMD_ACK 0 0 0 []) w0))
                     = pro ++ [cmd_send CMD_ACK 0 0 0 []; switch_off]).
       { apply appended_app. rewrite !emit_eq, !after_after. unfold after.
         cbn [trace]. rewrite Htr0, <- !app_assoc. reflexivity. }
       exists pro, 0, []. rewrite Heq.
       repeat split; auto. }
  destruct (read_uid_loop_events 4 0 w0) as [evs [Htr Hcase]].
  destruct (read_uid_loop 4 0 w0) as [ok w2]. cbn [fst snd] in *.
  destruct ok.
  2: { destruct Hcase as [before [calc [crc [-> Hb]]]].
       destruct (quiet_unseen _ Hb) as [Hhb _].
       assert (Heq : appended w (emit switch_off w2)
                     = (pro ++ before
                        ++ [Dbprintf crc_mismatch_fmt [calc; crc]])
                       ++ [cmd_send CMD_ACK 0 0 0 []; switch_off]).
       { apply appended_app. rewrite emit_eq. unfold after. cbn [trace].
         rewrite Htr, Htr0, <- !app_assoc. reflexivity. }
       assert (Hpre : host_view
                        (pro ++ before
                         ++ [Dbprintf crc_mismatch_fmt [calc; crc]]) = []).
       { unfold host_view in *.
         now rewrite filter_app, Hh0, filter_app, Hhb. }
       exists (pro ++ before ++ [Dbprintf crc_mismatch_fmt [calc; crc]]),
         0, [].
       rewrite Heq. repeat split; auto. }
  destruct (quiet_unseen _ Hcase) as [Hhe _].
  destruct (read_byte_events 4 (cmdsize (card w2)) w2) as [ev5 [Htr5 [Hh5 _]]].
  destruct (read_byte 4 (cmdsize (card w2)) w2) as [mcc w3].
  cbn [fst snd] in *.
  assert (Hpre : host_view (pro ++ evs ++ ev5) = []).
  { unfold host_view in *.
    now rewrite filter_app, Hh0, filter_app, Hhe, Hh5. }
  assert (Heq : forall e,
             appended w (emit switch_off (emit e w3))
             = (pro ++ evs ++ ev5) ++ [e; switch_off]).
  { intros e. apply appended_app. rewrite !emit_eq, !after_after.
    unfold after. cbn [trace].
    rewrite Htr5, Htr, Htr0, <- !app_assoc. reflexivity. }
  destruct (mcc =? int16 (CRC8Legic (firstn 4 (uid (card w3))))).
  - exists (pro ++ evs ++ ev5), 1, (card_image (card w3)).
    rewrite Heq. repeat split; auto.
  - exists (pro ++ evs ++ ev5), 0, [].
    rewrite Heq. repeat split; auto.
Qed.

Lemma int16_byte (x : Z) : 0 <= x < 256 -> int16 x = x.
Proof.
  intros H. unfold int16, uint16.
  rewrite Z.mod_small by (change (2 ^ 16) with 65536; lia).
  destruct (Z.ltb_spec x (2 ^ 15)) as [_|H']; [reflexivity|].
  change (2 ^ 15) with 32768 in H'. lia.
Qed.

Lemma read_commands_on_wire_app (p : legic_prng) (width : nat)
  (a b : list Z) :
  read_commands_on_wire p width (a ++ b)
  = read_commands_on_wire p width a
    ++ read_commands_on_wire
         (legic_prng_forward (length a * (width + 12)) p) width b.
Proof.
  revert p; induction a as [|x a IH]; intros p.
  - cbn [app read_commands_on_wire length Nat.mul]. now rewrite forward_0.
  - cbn [app read_commands_on_wire length]. rewrite IH, <- app_assoc.
    rewrite forward_forward. do 3 f_equal.
Qed.

Lemma read_uid_loop_wire (n : nat) (i : Z) (w : world) :
  fst (read_uid_loop n i w) = true ->
  exists evs,
    trace (snd (read_uid_loop n i w)) = trace w ++ evs /\
    wire_bits evs
    = read_commands_on_wire (lfsr w) (Z.to_nat (cmdsize (card w)))
        (map (fun k => i + Z.of_nat k) (seq 0 n)).
Proof.
  revert i w; induction n as [|n IH]; intros i w Hok.
  - exists []. cbn [read_uid_loop snd]. now rewrite app_nil_r.
  - cbn [read_uid_loop] in *.
    pose proof (read_byte_eq i (cmdsize (card w)) w) as E.
    cbv zeta in E. rewrite E in *. clear E.
    pose proof (response_data_range (Z.to_nat (cmdsize (card w))) w) as Hd.
    set (width := Z.to_nat (cmdsize (card w))) in *.
    destruct (calc_crc4 _ (cmdsize (card w)) (response_data width w)
              =? response_crc width w); [|discriminate Hok].
    destruct (Z.eqb_spec (response_data width w) (-1)) as [Habs|_]; [lia|].
    match type of Hok with
    | fst (read_uid_loop n (i + 1) ?w1) = true =>
        destruct (IH (i + 1) w1 Hok) as [evs [Htr Hw]]
    end.
    change (trace (set_card ?c ?x)) with (trace x) in Htr.
    change (lfsr (set_card ?c ?x)) with (lfsr x) in Hw.
    change (cmdsize (card (set_card (set_uid ?u ?c) ?x))) with (cmdsize c)
      in Hw.
    change (card (after ?a ?b ?e w)) with (card w) in Hw.
    rewrite lfsr_after in Hw. fold width in Hw.
    eexists. split.
    + rewrite Htr. unfold after. cbn [trace].
      rewrite <- app_assoc. reflexivity.
    + rewrite wire_bits_app, wire_bits_read_events, Hw.
      cbn [seq map read_commands_on_wire]. unfold command_word.
      rewrite Nat2Z.inj_0, Z.add_0_r. f_equal. f_equal.
      rewrite <- seq_shift, map_map. apply map_ext. intros k. lia.
Qed.

(** X17: when the host is told that the identification succeeded (the UID
    field being a four-byte array and the checksum a byte), the payload is
    the image of the card record; that record has one of the three tag
    types of the table, its UID is the four data bytes answered to the reads
    of addresses 0 to 3, in order, the byte answered at address 4 is the
    checksum of that UID, and none of the five answers failed its CRC.  The
    bits on the wire are those of the IV 1, of the acknowledgment and of
    five read commands, for the addresses 0, 1, 2, 3 and 4 in that order. *)
Theorem X17_identify_success (w : world) (data : list Z) :
  host_view (appended w (LegicRfInfo w)) = [cmd_send CMD_ACK 1 0 0 data] ->
  length (uid (card w)) = 4%nat ->
  (forall u, 0 <= CRC8Legic u < 256) ->
  let w' := LegicRfInfo w in
  let width := Z.to_nat (cmdsize (card w')) in
  data = card_image (card w') /\
  (tagtype (card w') = 0x0D \/ tagtype (card w') = 0x1D
   \/ tagtype (card w') = 0x3D) /\
  uid (card w') = bulk_data 1 w width 4 /\
  CRC8Legic (uid (card w')) = nth_read_data width (session_start 1 w) 4 /\
  existsb is_crc_mismatch (appended w w') = false /\
  wire_bits (appended w w')
  = xor_bits (frame_bits 1 7) (keystream_bits (legic_prng_init 0) 7)
    ++ xor_bits
         (frame_bits (if tagtype (card w') =? 0x0D then 0x19 else 0x39) 6)
         (keystream_bits (legic_prng_forward 8 (legic_prng_init 1)) 6)
    ++ read_commands_on_wire (legic_prng_forward 14 (legic_prng_init 1))
         width [0; 1; 2; 3; 4].
Proof.
  cbv zeta. intros Hh Hlen Hcrc.
  pose proof (LegicRfInfo_run w) as E. cbv zeta in E.
  rewrite E in *. clear E.
  pose proof (quiet_setup_calls 1 (ssc_pos w)) as Hq.
  pose proof (wire_bits_setup_calls 1 (ssc_pos w)) as Hwire0.
  cbv zeta in Hwire0.
  destruct (quiet_unseen _ Hq) as [Hh0 Hx0].
  pose proof (init_card_known (bits_value (type_bits 1 (ssc_pos w)))
                (card w)) as Hk.
  destruct (init_card_tagtype (bits_value (type_bits 1 (ssc_pos w)))
              (card w)) as [Htag Huid].
  set (w0 := after_setup 1 w) in *.
  set (pro := init_reader_calls ++ setup_calls 1 (ssc_pos w)) in *.
  assert (Htr0 : trace w0 = trace w ++ pro) by (unfold pro; reflexivity).
  assert (Hc0 : card w0
                = snd (init_card (bits_value (type_bits 1 (ssc_pos w)))
                                 (card w))) by reflexivity.
  rewrite <- Hc0 in Htag, Huid.
  assert (Hclose : forall pre e,
             host_view pre = [] -> is_cmd_send e = true ->
             host_view (pre ++ [e; switch_off]) = [e]).
  { intros pre e Hp He. unfold host_view in *.
    rewrite filter_app, Hp. cbn [filter app]. now rewrite He. }
  destruct (fst (init_card (bits_value (type_bits 1 (ssc_pos w))) (card w))
            =? 0).
  2: { exfalso.
       erewrite appended_app in Hh
         by (rewrite !emit_eq, !after_after; unfold after; cbn [trace];
             rewrite Htr0, <- !app_assoc; reflexivity).
       cbn [app] in Hh. rewrite Hclose in Hh by auto. discriminate Hh. }
  destruct (read_uid_loop_events 4 0 w0) as [evs [Htr Hcase]].
  pose proof (read_uid_loop_ok 4 0 w0) as Hok.
  pose proof (read_uid_loop_wire 4 0 w0) as Hwire.
  destruct (read_uid_loop 4 0 w0) as [ok w2]. cbn [fst snd] in *.
  destruct ok.
  2: { exfalso. destruct Hcase as [before [calc [crc [-> Hb]]]].
       destruct (quiet_unseen _ Hb) as [Hhb _].
       erewrite appended_app in Hh
         by (rewrite emit_eq; unfold after; cbn [trace];
             rewrite Htr, Htr0, <- !app_assoc; reflexivity).
       unfold host_view in *.
       rewrite filter_app, Hh0, filter_app, Hhb in Hh. discriminate Hh. }
  destruct Hok as (Hcard & Hl & Hp & Ht & _); [lia| |reflexivity|].
  { rewrite Huid, Hlen. cbn. lia. }
  change (Z.to_nat 0) with 0%nat in Hcard.
  assert (Hskip : skipn (0 + 4) (uid (card w0)) = []).
  { apply skipn_all2. rewrite Huid, Hlen. cbn. lia. }
  rewrite Hskip in Hcard. cbn [firstn app] in Hcard. rewrite app_nil_r in Hcard.
  assert (Hcs : cmdsize (card w2) = cmdsize (card w0))
    by (rewrite Hcard; reflexivity).
  assert (Hbytes : map (nth_read_data (Z.to_nat (cmdsize (card w0))) w0)
                       (seq 0 4)
                   = bulk_data 1 w (Z.to_nat (cmdsize (card w0))) 4).
  { unfold bulk_data. apply map_ext. intros k. unfold nth_read_data.
    apply response_data_ext; unfold after, w0, after_setup, session_start;
      cbn [input_threshold ssc_pos lfsr]; try reflexivity.
    rewrite <- Hk. reflexivity. }
  rewrite Hbytes in Hcard.
  pose proof (read_byte_eq 4 (cmdsize (card w2)) w2) as E5. cbv zeta in E5.
  rewrite Hcs in E5. rewrite Hcs in Hh. rewrite Hcs. rewrite E5 in *. clear E5.
  set (width := Z.to_nat (cmdsize (card w0))) in *.
  pose proof (response_data_range width w2) as Hd5.
  assert (Hfive : response_data width w2
                  = nth_read_data width (session_start 1 w) 4).
  { unfold nth_read_data. apply response_data_ext;
      unfold after, session_start; cbn [input_threshold ssc_pos lfsr].
    - rewrite Ht. reflexivity.
    - rewrite Hp. unfold w0, after_setup. cbn [ssc_pos]. lia.
    - rewrite Hl. unfold w0, after_setup. cbn [lfsr].
      rewrite <- Hk. reflexivity. }
  cbn [fst snd] in *.
  change (card (after ?a ?b ?e w2)) with (card w2) in *.
  assert (Hu4 : firstn 4 (uid (card w2)) = uid (card w2)).
  { apply firstn_all2. rewrite Hcard. cbn [uid set_uid]. unfold bulk_data.
    rewrite length_map, length_seq. lia. }
  rewrite Hu4 in *.
  pose proof (Hcrc (uid (card w2))) as Hc8.
  rewrite int16_byte in * by assumption.
  destruct (calc_crc4 _ (cmdsize (card w0)) (response_data width w2)
            =? response_crc width w2).
  2: { exfalso.
       destruct (Z.eqb_spec (-1) (CRC8Legic (uid (card w2)))) as [Hm|_];
         [lia|].
       erewrite appended_app in Hh
         by (rewrite !emit_eq, !after_after; unfold after; cbn [trace];
             rewrite Htr, Htr0, <- !app_assoc; reflexivity).
       destruct (quiet_unseen _ Hcase) as [Hhe _].
       unfold host_view in *.
       rewrite filter_app, Hh0, filter_app, Hhe, !filter_app in Hh.
       rewrite (proj1 (quiet_unseen _ (quiet_frame_on_wire _))) in Hh.
       cbn [filter is_cmd_send app] in Hh.
       rewrite (proj1 (quiet_unseen _ (quiet_rx_logs _ _ _))) in Hh.
       discriminate Hh. }
  set (ev5 := frame_on_wire _ ++ _ ++ []) in *.
  assert (Hw5 : wire_bits ev5
                = xor_bits (frame_bits (command_word 4) width)
                           (keystream_bits (lfsr w2) width))
    by (unfold ev5; apply wire_bits_read_events).
  assert (Hq5 : forallb quiet ev5 = true).
  { unfold ev5. rewrite !forallb_app, quiet_frame_on_wire.
    cbn [forallb quiet is_cmd_send is_crc_mismatch negb andb].
    now rewrite quiet_rx_logs. }
  assert (Hall : forallb quiet (pro ++ evs ++ ev5) = true)
    by (rewrite !forallb_app, Hq, Hcase, Hq5; reflexivity).
  destruct (quiet_unseen _ Hall) as [Hhall Hxall].
  assert (Heq : forall e,
             appended w (emit switch_off
                           (emit e (after (width + 12) 120 ev5 w2)))
             = (pro ++ evs ++ ev5) ++ [e; switch_off]).
  { intros e. apply appended_app. rewrite !emit_eq, !after_after.
    unfold after. cbn [trace]. rewrite Htr, Htr0, <- !app_assoc.
    reflexivity. }
  destruct (Z.eqb_spec (response_data width w2) (CRC8Legic (uid (card w2))))
    as [Hm|Hm].
  2: { exfalso. rewrite Heq, Hclose in Hh by auto. discriminate Hh. }
  rewrite Heq in *. rewrite Hclose in Hh by auto.
  injection Hh as Hdata.
  change (card (emit _ (emit _ (after _ _ _ w2)))) with (card w2).
  split; [now rewrite Hdata|]. split.
  { rewrite Hcard. cbn [tagtype set_uid]. rewrite Htag.
    destruct (Z.eqb_spec (bits_value (type_bits 1 (ssc_pos w))) 0x0D);
      [now left|].
    destruct (Z.eqb_spec (bits_value (type_bits 1 (ssc_pos w))) 0x1D);
      [right; now left|].
    destruct (Z.eqb_spec (bits_value (type_bits 1 (ssc_pos w))) 0x3D);
      [right; now right|discriminate Hk]. }
  split; [rewrite Hcard; reflexivity|]. split.
  { rewrite <- Hm, Hcs. exact Hfive. }
  split; [rewrite existsb_app, Hxall; reflexivity|].
  destruct (Hwire eq_refl) as [evs2 [Htr2 Hw2]].
  rewrite Htr in Htr2. apply app_inv_head in Htr2. subst evs2.
  rewrite !wire_bits_app, Hwire0, Hw2, Hw5.
  rewrite <- Hk. cbn [wire_bits flat_map wire_bit app].
  rewrite app_nil_r, <- app_assoc. f_equal. f_equal.
  - rewrite Hcard. cbn [tagtype set_uid]. rewrite Htag. reflexivity.
  - change [0; 1; 2; 3; 4] with ([0; 1; 2; 3] ++ [4]).
    rewrite read_commands_on_wire_app.
    cbn [read_commands_on_wire length]. rewrite app_nil_r.
    rewrite Hcs. fold width. rewrite Hl.
    unfold w0, after_setup. cbn [lfsr]. rewrite <- Hk.
    rewrite forward_forward. f_equal.
    + cbn [seq map read_commands_on_wire]. rewrite app_nil_r. reflexivity.
    + now rewrite app_nil_r.
Qed.

End Reader.

(** * The properties on sample inputs *)

(** C1: what the bulk read does with its length guard.  A request of
    offset 1020 and length 20 on a 1024-byte card is cut to 4 bytes, and
    those four are read and reported.  When the offset lies beyond the card
    the difference wraps: offset 2000, length 1 on a 1024-byte card becomes
    a length of 64560, and offset 23, length 1 on a 22-byte card becomes
    65535, where the read command for address 23 goes out on the wire (here
    its answer fails the CRC, which ends the run). *)
Theorem C1_bulk_read_length_guard :
  clamp_len 1020 20 1024 = 4 /\
  host_view
    (trace (LegicRfReader four_reads_stream zero_keystream zero_crc 0 1 0xff
                          1020 20 1 boot_world))
    = [cmd_send 0xff 1 4 0 [0xA5; 0x5A; 0xFF; 0x01]] /\
  clamp_len 2000 1 1024 = 64560 /\
  1024 < 2000 + clamp_len 2000 1 1024 /\
  clamp_len 23 1 22 = 65535 /\
  non_debug
    (trace (LegicRfReader first_read_fails_stream zero_keystream zero_crc
                          0 1 0xff 23 1 1 boot_world))
    = init_reader_calls
      ++ [GetCountUS]
      ++ frame_on_wire (frame_bits 1 7)
      ++ [GetCountUS; WaitUntil 330;
          FpgaWriteConfWord FPGA_MAJOR_MODE_HF_READER_RX_XCORR_848_KHZ_QUARTER]
      ++ frame_on_wire (frame_bits 0x19 6)
      ++ frame_on_wire (frame_bits (Z.lor (Z.shiftl 23 1) 1) 6)
      ++ [FpgaWriteConfWord FPGA_MAJOR_MODE_HF_READER_RX_XCORR_848_KHZ_QUARTER;
          cmd_send 0xff 0 0 0 []; switch_off].
Proof. repeat split; vm_compute; reflexivity. Qed.

(** C2 on a sample: the value 11 sent as a 4-bit frame comes back as 11. *)
Lemma C2_frame_round_trip_sample :
  fst (rx_frame loopback_stream toggling_keystream 4 tuned_world) = 11.
Proof.
  refine (proj2 (proj2 (proj2 (proj2
            (C2_frame_round_trip loopback_stream toggling_keystream
               4 11 boot_world tuned_world)))) _ _ _ _).
  - lia.
  - vm_compute. split; [discriminate|reflexivity].
  - reflexivity.
  - vm_compute. reflexivity.
Defined.

(** C3 on a sample: an answer whose CRC nibble is 1 where 0 is expected. *)
Lemma C3_read_byte_crc_check_sample :
  fst (read_byte (stream_of_bits 0 (response 0xA5 1)) zero_keystream zero_crc
                 1 3 6 tuned_world) = -1.
Proof.
  destruct (C3_read_byte_crc_check (stream_of_bits 0 (response 0xA5 1))
              zero_keystream zero_crc 1 3 6 tuned_world)
    as (_ & _ & _ & _ & _ & _ & _ & H).
  apply H. vm_compute. discriminate.
Defined.

(** C4 on a sample: the handshake with the IV 0x81 and a 22-byte card.  The
    frame of the IV carries 1, the card type comes back as 0x0D, the
    acknowledgment 0x19 follows, and the keystream ends at seed 129,
    position 14. *)
Lemma C4_handshake_steps_sample :
  let r := setup_phase_reader first_read_fails_stream zero_keystream 0 0x81
                              boot_world in
  fst r = 0x0D /\
  non_debug (appended boot_world (snd r))
  = [GetCountUS]
    ++ frame_on_wire (frame_bits 1 7)
    ++ [GetCountUS; WaitUntil 330;
        FpgaWriteConfWord FPGA_MAJOR_MODE_HF_READER_RX_XCORR_848_KHZ_QUARTER]
    ++ frame_on_wire (frame_bits 0x19 6) /\
  lfsr (snd r) = mk_prng 129 14 /\
  bits_value (frame_bits 0x81 7) = 1 /\
  prng_seed (lfsr (snd r)) = 129.
Proof.
  pose proof (C4_handshake_steps first_read_fails_stream zero_keystream 0
                0x81 boot_world) as H.
  cbv zeta in H. destruct H as (H1 & H2 & H3 & _ & H5 & H6).
  cbv zeta. rewrite H6, H5, H2, H3, H1.
  vm_compute. repeat split.
Defined.

(** C4, as the claim words it, fails: with the IV 0x81 the seven bits that
    go on the wire carry the value 1, while the keystream is re-seeded with
    129. *)
Lemma C4_seed_differs_from_value_sent :
  let r := setup_phase_reader first_read_fails_stream zero_keystream 0 0x81
                              boot_world in
  let sent :=
    xor_bits (firstn 7 (wire_bits (appended boot_world (snd r))))
             (keystream_bits zero_keystream (legic_prng_init 0) 7) in
  bits_value sent = 1 /\
  prng_seed (lfsr (snd r)) = 129 /\
  prng_seed (lfsr (snd r)) <> bits_value sent.
Proof.
  vm_compute. repeat split. discriminate.
Qed.

(** C5 on a sample: the code 5 is not in the table. *)
Lemma C5_init_card_table_sample :
  fst (init_card 5 blank_card) = 2 /\ fst (init_card 5 blank_card) <> 0.
Proof.
  destruct (C5_init_card_table 5 blank_card) as (_ & _ & _ & H).
  apply H; discriminate.
Defined.

(** C6, as the claim words it, fails: after the unrecognized code 5 the tag
    type field holds 5 and the UID of the earlier card is still there, so
    the record is not all zero. *)
Lemma C6_all_fields_zeroed_fails :
  let c := snd (init_card 5 stale_card) in
  tagtype c = 5 /\ uid c = [0x12; 0x34; 0x56; 0x78] /\
  ~ (tagtype c = 0 /\ cmdsize c = 0 /\ addrsize c = 0 /\ cardsize c = 0
     /\ uid c = [0; 0; 0; 0]).
Proof.
  cbv zeta. split; [reflexivity|]. split; [reflexivity|].
  intros [H _]. discriminate H.
Qed.

(** C6, as amended, on a sample. *)
Lemma C6_init_card_unrecognized_sample :
  let c := snd (init_card 5 stale_card) in
  fst (init_card 5 stale_card) = 2 /\
  cmdsize c = 0 /\ addrsize c = 0 /\ cardsize c = 0 /\
  tagtype c = 5 /\ uid c = uid stale_card.
Proof.
  apply (C6_init_card_unrecognized 5 stale_card); discriminate.
Defined.

(** C7 on a sample: the samples 5, 150 and 20 give the threshold 300. *)
Lemma C7_calibrated_threshold_sample :
  let th :=
    input_threshold
      (snd (setup_phase_reader charge_up_stream zero_keystream 2 1
                               boot_world)) in
  th = 2 * Z.max 150 8 /\ (8 <= 150 -> th = 2 * 150) /\ (150 < 8 -> th = 16).
Proof.
  apply (C7_calibrated_threshold charge_up_stream zero_keystream 2 1
           boot_world 150).
  - vm_compute. right. left. reflexivity.
  - intros s Hs. vm_compute in Hs.
    destruct Hs as [<-|[<-|[<-|[]]]]; discriminate.
Defined.

(** C8 on a sample: a strong 3rd sample and a silent 4th give 0 and a
    print. *)
Lemma C8_rx_bit_decision_sample :
  rx_bit fading_stream tuned_world
  = (false,
     after 0 10 [Dbprintf rx_bit_failed_fmt [150; 0; 16]] tuned_world).
Proof.
  destruct (C8_rx_bit_decision fading_stream tuned_world) as (_ & _ & H).
  apply H; vm_compute; intros [H1 H2]; discriminate.
Defined.

(** C9 on a sample: the first byte is read, the second fails its CRC, and
    the host sees the zero-length failure only. *)
Lemma C9_bulk_read_crc_failure_sample :
  host_view
    (appended boot_world
       (LegicRfReader second_read_fails_stream zero_keystream zero_crc
                      0 1 0xff 0 5 1 boot_world))
  = [cmd_send 0xff 0 0 0 []].
Proof.
  refine (proj1 (C9_bulk_read_crc_failure second_read_fails_stream
                   zero_keystream zero_crc 0 1 0xff 0 5 1 boot_world _)).
  vm_compute. reflexivity.
Defined.

(** C10 on a sample: both decision samples are 150, the threshold. *)
Lemma C10_rx_bit_sample_at_threshold_sample :
  rx_bit (stream_of_bits 0 [true]) edge_world
  = (false,
     after 0 10 [Dbprintf rx_bit_failed_fmt [150; 150; 150]] edge_world).
Proof.
  apply (C10_rx_bit_sample_at_threshold (stream_of_bits 0 [true]) edge_world).
  left. vm_compute. reflexivity.
Defined.

(** * The further properties on sample inputs *)

(** X2 on a sample: as 7-bit frames, 0x81 and 0x01 are the same. *)
Lemma X2_tx_frame_low_bits_only_sample :
  tx_frame zero_keystream 0x81 7 boot_world
  = tx_frame zero_keystream 0x01 7 boot_world.
Proof.
  apply (X2_tx_frame_low_bits_only zero_keystream 0x81 0x01 7 boot_world).
  - lia.
  - reflexivity.
Defined.

(** X3 on a sample: four received bits give a value below 16. *)
Lemma X3_rx_frame_range_sample :
  0 <= fst (rx_frame loopback_stream toggling_keystream 4 tuned_world)
    < 2 ^ 4.
Proof.
  refine (proj1 (X3_rx_frame_range loopback_stream toggling_keystream 4
                   tuned_world _)).
  lia.
Defined.

(** X4 on a sample: six bit periods of silence return the keystream bits
    1 0 1 0 1 0, that is 21. *)
Lemma X4_rx_frame_silence_sample :
  fst (rx_frame silent_stream toggling_keystream 6 tuned_world) = 21.
Proof.
  refine (proj1 (X4_rx_frame_silence silent_stream toggling_keystream 6
                   tuned_world _ _)).
  - lia.
  - vm_compute. reflexivity.
Defined.

(** X6 on a sample: a strong carrier under a threshold of 200. *)
Lemma X6_rx_bit_blind_above_192_sample :
  fst (rx_bit (stream_of_bits 0 [true]) blind_world) = false.
Proof.
  apply (X6_rx_bit_blind_above_192 (stream_of_bits 0 [true]) blind_world).
  simpl. lia.
Defined.

(** X7 on a sample: a calibration sample of 150 gives the threshold 300;
    the card type is that of the keystream alone. *)
Lemma X7_setup_blinded_by_strong_calibration_sample :
  192 <= input_threshold
           (snd (setup_phase_reader charge_up_stream toggling_keystream 2 1
                                    boot_world)) /\
  fst (setup_phase_reader charge_up_stream toggling_keystream 2 1 boot_world)
  = bits_value
      (keystream_bits toggling_keystream
         (legic_prng_forward 2 (legic_prng_init 1)) 6).
Proof.
  apply (X7_setup_blinded_by_strong_calibration charge_up_stream
           toggling_keystream 2 1 boot_world 150).
  - vm_compute. right. left. reflexivity.
  - lia.
Defined.

(** X8 on a sample: the 1024-byte card. *)
Lemma X8_init_card_success_geometry_sample :
  let c := snd (init_card 0x3d blank_card) in
  (0x3d = 0x0d \/ 0x3d = 0x1d \/ 0x3d = 0x3d) /\
  tagtype c = 0x3d /\ uid c = uid blank_card /\
  cmdsize c = addrsize c + 1 /\
  0 < cardsize c <= 2 ^ addrsize c /\
  cardsize c <= LEGIC_CARD_MEMSIZE.
Proof.
  apply (X8_init_card_success_geometry 0x3d blank_card). reflexivity.
Defined.

(** X9 on a sample: address 5 on a 22-byte card, data byte 0xA5. *)
Lemma X9_read_command_and_crc_word_sample :
  let cmd := uint16 (Z.lor (Z.shiftl 5 1) 1) in
  cmd = 2 * 5 + 1 /\ 0 <= cmd < 2 ^ 6 /\
  calc_crc4 zero_crc cmd 6 0xA5
  = uint8 (zero_crc (0xA5 * 2 ^ 6 + cmd) (8 + 6)).
Proof.
  apply (X9_read_command_and_crc_word zero_crc 1 5 6 0xA5).
  - lia.
  - vm_compute. split; [discriminate|reflexivity].
  - lia.
  - lia.
Defined.

(** X10 on a sample: offset 1020, length 20 on a 1024-byte card. *)
Lemma X10_clamp_len_offset_inside_sample :
  clamp_len 1020 20 1024 = Z.min 20 (1024 - 1020) /\
  1020 + clamp_len 1020 20 1024 <= 1024 /\
  (20 + 1020 <= 1024 -> clamp_len 1020 20 1024 = 20).
Proof.
  apply (X10_clamp_len_offset_inside 1020 20 1024).
  - lia.
  - reflexivity.
  - lia.
Defined.

(** X11 on a sample: offset 2000, length 1 on a 1024-byte card. *)
Lemma X11_clamp_len_offset_beyond_sample :
  clamp_len 2000 1 1024 = 2 ^ 16 - (2000 - 1024) /\
  1 <= clamp_len 2000 1 1024 /\
  1024 < 2000 + clamp_len 2000 1 1024.
Proof.
  apply (X11_clamp_len_offset_beyond 2000 1 1024).
  - lia.
  - reflexivity.
  - lia.
Defined.




(** X17 on a sample: a 22-byte card with UID 1 2 3 4 and checksum 10. *)
Lemma X17_identify_success_sample :
  uid (card (LegicRfInfo identify_stream zero_keystream zero_crc 0 1 0xff
                         sum_crc8 flat_card_image boot_world))
  = [1; 2; 3; 4].
Proof.
  destruct (X17_identify_success identify_stream zero_keystream zero_crc
              0 1 0xff sum_crc8 flat_card_image boot_world
              [0x0d; 6; 5; 22; 0; 1; 2; 3; 4]) as (_ & _ & H & _).
  - vm_compute. reflexivity.
  - reflexivity.
  - intros u. unfold sum_crc8. apply Z.mod_pos_bound. lia.
  - rewrite H. vm_compute. reflexivity.
Defined.

